(** * PM10AHDS: the Power-Mate serial protocol driver

    A shallow embedding of [PM10AHDS.py]: packet framing
    ([construct_packet]), response validation ([validate_packet]) and the
    two request methods ([request_status], [request_erase]), followed by
    the properties of the wire protocol that hold on them.

    Conventions.
    - A Python [bytes] object is a [list byte]; a Python [str] is the list
      of its code points ([list N]); a Python [int] is a [Z]; a Python
      [float] is a binary64 [float].
    - A method returns in the monad [M]: the records written with
      [logging.error], and either the returned value or the exception that
      left the method. *)

From Stdlib Require Import ZArith NArith List Bool Lia.
From Stdlib Require Import Sorting.Permutation.
From Stdlib Require Import Strings.Byte.
From Stdlib Require Strings.String.
Import String.StringSyntax.
From Stdlib Require Import Floats.PrimFloat Floats.SpecFloat Floats.FloatOps.
Import ListNotations.

Set Warnings "-inexact-float".
Local Open Scope Z_scope.

(** ** Python values *)

Definition bytes := list byte.
Definition text := list N.

(** A [bytes] literal, as in [b'S,']. *)
Definition b (s : String.string) : bytes := String.list_byte_of_string s.
Arguments b s%_string_scope.

(** A [str] literal of ASCII characters. *)
Definition u (s : String.string) : text := map Byte.to_N (String.list_byte_of_string s).
Arguments u s%_string_scope.

Definition byte_val (x : byte) : Z := Z.of_N (Byte.to_N x).

Definition byte_of_N (n : N) : byte :=
  match Byte.of_N n with Some x => x | None => x00 end.

Definition bytes_eqb (x y : bytes) : bool :=
  if list_eq_dec Byte.byte_eq_dec x y then true else false.

Definition text_eqb (x y : text) : bool :=
  if list_eq_dec N.eq_dec x y then true else false.

(** ** Exceptions, logging and the method monad *)

Inductive exn :=
| IndexError
| ValueError
| OverflowError
| UnicodeDecodeError
| UnicodeEncodeError.

Inductive result (A : Type) :=
| Return (a : A)
| Raise (e : exn).
Arguments Return {A} a.
Arguments Raise {A} e.

(** The [logging.error] call sites of the module, each with the values its
    message is formatted from. *)
Inductive log_event :=
| LogNoSOM
    (* "Packet Validation - Did not find correct SOM." *)
| LogAddressMismatch (got : bytes) (expected : Z)
    (* "Packet Validation - Address {got} did not match expected address ({expected:02x})." *)
| LogNoChecksum
    (* "Packet Validation - Could not extract checksum portion of packet." *)
| LogChecksumMismatch (calculated supplied : bytes)
    (* "Packet Validation - Calculated Checksum ({calculated}) does not match supplied checksum ({supplied})." *)
| LogNoResponse
    (* "No response from PowerMate!" *)
| LogNotStatus
    (* "Not a status response!" *)
| LogNotEnoughFields
    (* "Not enough fields in status response!" *)
| LogUnknownErase.
    (* "Unknown response to Erase request!" *)

Definition M (A : Type) : Type := (list log_event * result A)%type.

Definition ret {A} (a : A) : M A := ([], Return a).
Definition raise {A} (e : exn) : M A := ([], Raise e).
Definition logging_error (ev : log_event) : M unit := ([ev], Return tt).

Definition bind {A B} (m : M A) (k : A -> M B) : M B :=
  match m with
  | (l, Return a) => let (l', r) := k a in (l ++ l', r)
  | (l, Raise e) => (l, Raise e)
  end.

(** [try: m except: h] with a bare [except] clause. *)
Definition try_except {A} (m : M A) (h : M A) : M A :=
  match m with
  | (l, Return a) => (l, Return a)
  | (l, Raise _) => let (l', r) := h in (l ++ l', r)
  end.

Declare Scope py_scope.
Delimit Scope py_scope with py.
Notation "x <- m ;; k" := (bind m (fun x => k))
  (at level 61, m at next level, right associativity) : py_scope.
Notation "m ;;; k" := (bind m (fun _ => k))
  (at level 61, right associativity) : py_scope.
Local Open Scope py_scope.

(** [seq[i]] *)
Definition index {A} (s : list A) (i : nat) : M A :=
  match nth_error s i with
  | Some x => ret x
  | None => raise IndexError
  end.

(** [seq[i:j]] for [0 <= i <= j] *)
Definition slice {A} (s : list A) (i j : nat) : list A :=
  firstn (j - i) (skipn i s).

(** [seq[i:]] *)
Definition slice_from {A} (s : list A) (i : nat) : list A := skipn i s.

(** [s.split(sep)] for a one-element separator: the pieces between the
    occurrences of [sep], at least one piece. *)
Fixpoint split {A} (eqb : A -> A -> bool) (sep : A) (s : list A) : list (list A) :=
  match s with
  | [] => [[]]
  | x :: r =>
      if eqb x sep then [] :: split eqb sep r
      else match split eqb sep r with
           | p :: ps => (x :: p) :: ps
           | [] => [[x]]
           end
  end.

Definition bytes_split (sep : byte) (s : bytes) : list bytes := split Byte.eqb sep s.
Definition str_split (sep : N) (s : text) : list text := split N.eqb sep s.

(** [sum(list(bytearray(s)))] *)
Definition sum_bytes (s : bytes) : Z :=
  fold_left (fun acc x => acc + byte_val x) s 0.

(** ** String formatting *)

(** The lower-case hexadecimal digit of [d], [0 <= d < 16]. *)
Definition hex_digit (d : Z) : N :=
  if d <? 10 then Z.to_N (48 + d) else Z.to_N (87 + d).

Fixpoint hex_digits (fuel : nat) (n : Z) (acc : text) : text :=
  match fuel with
  | O => acc
  | S fuel' =>
      let acc' := hex_digit (n mod 16) :: acc in
      if n / 16 =? 0 then acc' else hex_digits fuel' (n / 16) acc'
  end.

(** [f"{n:0{width}x}"]: sign, then the hexadecimal digits of [|n|] padded
    with zeros to [width] characters in all. *)
Definition format_0x (width : nat) (n : Z) : text :=
  let ds := hex_digits (S (Z.to_nat (Z.log2 (Z.abs n)))) (Z.abs n) [] in
  let sign := if n <? 0 then [45%N] else [] in
  sign ++ repeat 48%N (width - length sign - length ds) ++ ds.

(** [str.upper()] on ASCII text (the only text the module applies it to
    is the output of the [x] format). *)
Definition upper (s : text) : text :=
  map (fun c => if (97 <=? c)%N && (c <=? 122)%N then (c - 32)%N else c) s.

(** [str.encode()]: UTF-8, strict. *)
Definition utf8_encode_char (c : N) : option bytes :=
  (if c <? 0x80 then Some [byte_of_N c]
   else if c <? 0x800 then
     Some [byte_of_N (0xC0 + c / 64); byte_of_N (0x80 + c mod 64)]
   else if (0xD800 <=? c) && (c <=? 0xDFFF) then None
   else if c <? 0x10000 then
     Some [byte_of_N (0xE0 + c / 4096); byte_of_N (0x80 + (c / 64) mod 64);
           byte_of_N (0x80 + c mod 64)]
   else if c <? 0x110000 then
     Some [byte_of_N (0xF0 + c / 262144); byte_of_N (0x80 + (c / 4096) mod 64);
           byte_of_N (0x80 + (c / 64) mod 64); byte_of_N (0x80 + c mod 64)]
   else None)%N.

Fixpoint encode (s : text) : M bytes :=
  match s with
  | [] => ret []
  | c :: r =>
      match utf8_encode_char c with
      | Some bs => r' <- encode r ;; ret (bs ++ r')
      | None => raise UnicodeEncodeError
      end
  end.

(** ** The driver object *)

Record PM10AHDS := { address : Z }.

(** [__init__], without the opening of the serial port. *)
Definition init (addr : Z) : M PM10AHDS :=
  if (addr <? 1) || (addr >? 254) then raise ValueError
  else ret {| address := addr |}.

Inductive command :=
| Bytes (c : bytes)
| Str (s : text).

Definition construct_packet (self : PM10AHDS) (cmd : command) : M bytes :=
  command <- match cmd with
             | Bytes c => ret c
             | Str s => encode s
             end ;;
  _address <- encode (upper (format_0x 2 (address self))) ;;
  let _body := _address ++ command in
  _checksum <- encode (upper (format_0x 4 (sum_bytes _body mod 65536))) ;;
  let _packet := b "<" ++ _body ++ b ";" ++ _checksum ++ [x0d; x0a] in
  ret _packet.

(** ** Builtins used on the response *)

Definition in_range (lo hi n : N) : bool := ((lo <=? n) && (n <=? hi))%N.

(** The bytes [bytes.strip()] removes: [b' \t\n\r\x0b\x0c']. *)
Definition is_bytes_space (x : byte) : bool :=
  in_range 9 13 (Byte.to_N x) || (Byte.to_N x =? 32)%N.

Fixpoint lstrip (s : bytes) : bytes :=
  match s with
  | x :: r => if is_bytes_space x then lstrip r else s
  | [] => []
  end.

(** [s.strip()] *)
Definition strip (s : bytes) : bytes := rev (lstrip (rev (lstrip s))).

(** [bytes.decode()]: UTF-8, strict (no overlong forms, no surrogates,
    nothing above U+10FFFF). *)
Fixpoint decode (s : bytes) : M text :=
  match s with
  | [] => ret []
  | b0 :: r0 =>
      let n0 := Byte.to_N b0 in
      if (n0 <? 0x80)%N then t <- decode r0 ;; ret (n0 :: t)
      else if in_range 0xC2 0xDF n0 then
        match r0 with
        | b1 :: r1 =>
            let n1 := Byte.to_N b1 in
            if in_range 0x80 0xBF n1 then
              t <- decode r1 ;;
              ret (((n0 - 0xC0) * 64 + (n1 - 0x80))%N :: t)
            else raise UnicodeDecodeError
        | _ => raise UnicodeDecodeError
        end
      else if in_range 0xE0 0xEF n0 then
        match r0 with
        | b1 :: b2 :: r2 =>
            let n1 := Byte.to_N b1 in
            let n2 := Byte.to_N b2 in
            let lo := if (n0 =? 0xE0)%N then 0xA0%N else 0x80%N in
            let hi := if (n0 =? 0xED)%N then 0x9F%N else 0xBF%N in
            if in_range lo hi n1 && in_range 0x80 0xBF n2 then
              t <- decode r2 ;;
              ret (((n0 - 0xE0) * 4096 + (n1 - 0x80) * 64 + (n2 - 0x80))%N :: t)
            else raise UnicodeDecodeError
        | _ => raise UnicodeDecodeError
        end
      else if in_range 0xF0 0xF4 n0 then
        match r0 with
        | b1 :: b2 :: b3 :: r3 =>
            let n1 := Byte.to_N b1 in
            let n2 := Byte.to_N b2 in
            let n3 := Byte.to_N b3 in
            let lo := if (n0 =? 0xF0)%N then 0x90%N else 0x80%N in
            let hi := if (n0 =? 0xF4)%N then 0x8F%N else 0xBF%N in
            if in_range lo hi n1 && in_range 0x80 0xBF n2 && in_range 0x80 0xBF n3 then
              t <- decode r3 ;;
              ret (((n0 - 0xF0) * 262144 + (n1 - 0x80) * 4096
                    + (n2 - 0x80) * 64 + (n3 - 0x80))%N :: t)
            else raise UnicodeDecodeError
        | _ => raise UnicodeDecodeError
        end
      else raise UnicodeDecodeError
  end.

(** *** [int(s)] for a [str]

    CPython first maps the text to ASCII
    ([_PyUnicode_TransformDecimalAndSpaceToASCII]): an all-ASCII string is
    kept as it is; otherwise every non-ASCII white space becomes a blank,
    every non-ASCII decimal digit its ASCII digit, and the text is cut at
    the first other non-ASCII character, replaced by [?].  The tables are
    those of Unicode 14.0 (CPython 3.11). *)

(** The code points of the non-ASCII digits zero; each starts a run of the
    ten digits 0 to 9. *)
Definition unicode_zeros : list N :=
  [0x660; 0x6f0; 0x7c0; 0x966; 0x9e6; 0xa66; 0xae6; 0xb66; 0xbe6; 0xc66;
   0xce6; 0xd66; 0xde6; 0xe50; 0xed0; 0xf20; 0x1040; 0x1090; 0x17e0;
   0x1810; 0x1946; 0x19d0; 0x1a80; 0x1a90; 0x1b50; 0x1bb0; 0x1c40; 0x1c50;
   0xa620; 0xa8d0; 0xa900; 0xa9d0; 0xa9f0; 0xaa50; 0xabf0; 0xff10;
   0x104a0; 0x10d30; 0x11066; 0x110f0; 0x11136; 0x111d0; 0x112f0; 0x11450;
   0x114d0; 0x11650; 0x116c0; 0x11730; 0x118e0; 0x11950; 0x11c50; 0x11d50;
   0x11da0; 0x16a60; 0x16ac0; 0x16b50; 0x1d7ce; 0x1d7d8; 0x1d7e2; 0x1d7ec;
   0x1d7f6; 0x1e140; 0x1e2f0; 0x1e950; 0x1fbf0]%N.

(** The non-ASCII white space characters. *)
Definition unicode_spaces : list N :=
  [0x85; 0xa0; 0x1680; 0x2000; 0x2001; 0x2002; 0x2003; 0x2004; 0x2005;
   0x2006; 0x2007; 0x2008; 0x2009; 0x200a; 0x2028; 0x2029; 0x202f; 0x205f;
   0x3000]%N.

Definition unicode_isspace (c : N) : bool := existsb (N.eqb c) unicode_spaces.

Definition unicode_todecimal (c : N) : option N :=
  match find (fun z => in_range z (z + 9) c) unicode_zeros with
  | Some z => Some (c - z)%N
  | None => None
  end.

Fixpoint transform_nonascii (s : text) : text :=
  match s with
  | [] => []
  | c :: r =>
      if (c <? 127)%N then c :: transform_nonascii r
      else if unicode_isspace c then 32%N :: transform_nonascii r
      else match unicode_todecimal c with
           | Some d => (48 + d)%N :: transform_nonascii r
           | None => [63%N]
           end
  end.

Definition transform_decimal_and_space (s : text) : text :=
  if forallb (fun c => (c <? 128)%N) s then s else transform_nonascii s.

(** [Py_ISSPACE] *)
Definition is_c_space (c : N) : bool := in_range 9 13 c || (c =? 32)%N.

Fixpoint skip_space (s : text) : text :=
  match s with
  | c :: r => if is_c_space c then skip_space r else s
  | [] => []
  end.

(** The digit scan of [PyLong_FromString] in base 10: digits, with single
    underscores between them.  Yields the value, the number of digits and
    the text left, or nothing after a doubled or trailing underscore. *)
Fixpoint scan_digits (s : text) (prev_underscore : bool) (acc : Z) (digits : N)
  : option (Z * N * text) :=
  match s with
  | c :: r =>
      if (c =? 95)%N then
        if prev_underscore then None else scan_digits r true acc digits
      else if in_range 48 57 c then
        scan_digits r false (10 * acc + Z.of_N (c - 48)) (digits + 1)%N
      else if prev_underscore then None else Some (acc, digits, s)
  | [] => if prev_underscore then None else Some (acc, digits, [])
  end.

(** The default of [sys.get_int_max_str_digits()]. *)
Definition max_str_digits : N := 4300.

Definition py_int (s : text) : M Z :=
  let str := skip_space (transform_decimal_and_space s) in
  let '(negative, str) :=
    match str with
    | 43%N :: r => (false, r)
    | 45%N :: r => (true, r)
    | _ => (false, str)
    end in
  match str with
  | 95%N :: _ => raise ValueError
  | _ =>
      match scan_digits str false 0 0 with
      | None => raise ValueError
      | Some (v, digits, rest) =>
          if (max_str_digits <? digits)%N then raise ValueError
          else if (digits =? 0)%N then raise ValueError
          else match skip_space rest with
               | [] => ret (if negative then - v else v)
               | _ => raise ValueError
               end
      end
  end.

(** The conversion of an [int] operand of a float operation
    ([PyLong_AsDouble]): the nearest binary64 value, ties to even, and
    [OverflowError] when that is out of range. *)
Definition float_of_int (z : Z) : M float :=
  let f := SF2Prim (binary_normalize prec emax z 0 false) in
  if is_infinity f then raise OverflowError else ret f.

(** [i * x] and [i / x] for an [int] [i] and a non-zero [float] [x]. *)
Definition int_mul_float (i : Z) (x : float) : M float :=
  f <- float_of_int i ;; ret (f * x)%float.
Definition int_div_float (i : Z) (x : float) : M float :=
  f <- float_of_int i ;; ret (f / x)%float.

(** ** Validation of a response packet *)

Definition validate_packet (self : PM10AHDS) (packet : bytes) : M bool :=
  som <- index packet 0 ;;
  if negb (byte_val som =? 62) then
    logging_error LogNoSOM ;;; ret false
  else
    _address <- encode (upper (format_0x 2 (address self))) ;;
    if negb (bytes_eqb (slice packet 1 3) _address) then
      logging_error (LogAddressMismatch (slice packet 1 3) (address self)) ;;;
      ret false
    else
      (* [None] stands for the [return False] of the [except] clause *)
      parts <- try_except
                 (_checksum <- index (bytes_split ";" packet) 1 ;;
                  _body <- index (bytes_split ";" packet) 0 ;;
                  ret (Some (_checksum, _body)))
                 (logging_error LogNoChecksum ;;; ret None) ;;
      match parts with
      | None => ret false
      | Some (_checksum, _body) =>
          _calculated_checksum <-
            encode (upper (format_0x 4 (sum_bytes (slice_from _body 1) mod 65536))) ;;
          if negb (bytes_eqb _checksum _calculated_checksum) then
            logging_error (LogChecksumMismatch _calculated_checksum _checksum) ;;;
            ret false
          else ret true
      end.

(** ** The status request *)

(** The dictionary [request_status] returns, by key. *)
Record status := {
  runtime_seconds : Z;
  energy_kwh : float;
  power_w : float;
  voltage_v : float;
  current_a : float;
  powerfactor_leadlag : text;
  powerfactor : float;
  apparent_power_va : float
}.

(** [request_status] from the test of [_resp] on: what the method does
    with the value [readline] returned. *)
Definition status_response (self : PM10AHDS) (_resp : option bytes)
  : M (option status) :=
  match _resp with
  | None | Some [] => logging_error LogNoResponse ;;; ret None
  | Some _resp =>
      let _resp := strip _resp in
      valid <- validate_packet self _resp ;;
      if valid then
        part0 <- index (bytes_split ";" _resp) 0 ;;
        _body <- decode part0 ;;
        type <- index _body 3 ;;
        if negb (type =? 83)%N then
          logging_error LogNotStatus ;;; ret None
        else
          let _fields := str_split 44%N _body in
          if negb (length _fields =? 11)%nat then
            logging_error LogNotEnoughFields ;;; ret None
          else
            f3 <- index _fields 3 ;;
            runtime <- py_int f3 ;;
            f4 <- index _fields 4 ;;
            i4 <- py_int f4 ;;
            energy <- int_mul_float i4 2.7777777777778E-10 ;;
            f5 <- index _fields 5 ;;
            i5 <- py_int f5 ;;
            power <- int_div_float i5 1e3 ;;
            f6 <- index _fields 6 ;;
            i6 <- py_int f6 ;;
            voltage <- int_div_float i6 1e6 ;;
            f7 <- index _fields 7 ;;
            i7 <- py_int f7 ;;
            current <- int_div_float i7 1e6 ;;
            f8 <- index _fields 8 ;;
            let leadlag := if text_eqb f8 (u "1") then u "lag" else u "lead" in
            f9 <- index _fields 9 ;;
            i9 <- py_int f9 ;;
            pf <- int_div_float i9 1e6 ;;
            f10 <- index _fields 10 ;;
            i10 <- py_int f10 ;;
            apparent <- int_div_float i10 1e3 ;;
            ret (Some {| runtime_seconds := runtime;
                         energy_kwh := energy;
                         power_w := power;
                         voltage_v := voltage;
                         current_a := current;
                         powerfactor_leadlag := leadlag;
                         powerfactor := pf;
                         apparent_power_va := apparent |})
      else ret None
  end.

(** ** The erase request *)

(** [request_erase] from the test of [_resp] on. *)
Definition erase_response (self : PM10AHDS) (_resp : option bytes)
  : M (option bool) :=
  match _resp with
  | None | Some [] => logging_error LogNoResponse ;;; ret None
  | Some _resp =>
      _resp <- decode (strip _resp) ;;
      type <- index _resp 3 ;;
      if (type =? 69)%N then ret (Some true)
      else logging_error LogUnknownErase ;;; ret (Some false)
  end.

(** ** The serial port

    What the driver sees of [serial.Serial]: the packets written so far and
    the lines the device will answer with; [readline] yields [b''] when the
    timeout passes with nothing to read. *)
Record Serial := { written : list bytes; incoming : list bytes }.

Definition write (s : Serial) (data : bytes) : Serial :=
  {| written := written s ++ [data]; incoming := incoming s |}.

Definition readline (s : Serial) : Serial * bytes :=
  match incoming s with
  | [] => (s, [])
  | line :: rest => ({| written := written s; incoming := rest |}, line)
  end.

(** A request: frame the command, write it, read one line and hand it to
    the method's response handling. *)
(** [flush] waits until the output is written: nothing the driver sees. *)
Definition flush (s : Serial) : Serial := s.

Definition request {A} (self : PM10AHDS) (cmd : bytes)
    (handle : PM10AHDS -> option bytes -> M A) (s : Serial) : Serial * M A :=
  match construct_packet self (Bytes cmd) with
  | (l, Raise e) => (s, (l, Raise e))
  | (l, Return _packet) =>
      let s := write (flush s) _packet in
      let (s, _resp) := readline s in
      (s, (_ <- (l, Return tt) ;; handle self (Some _resp)))
  end.

Definition request_status (self : PM10AHDS) (s : Serial) : Serial * M (option status) :=
  request self (b "S,") status_response s.

Definition request_erase (self : PM10AHDS) (s : Serial) : Serial * M (option bool) :=
  request self (b "E,") erase_response s.

(** ** The wire format, as the protocol description words it *)

(** The sixteen upper-case hexadecimal digits. *)
Definition HEXDIGITS : bytes := b "0123456789ABCDEF".

Definition upper_hex_digit (d : Z) : byte := nth (Z.to_nat d) HEXDIGITS x00.

(** [n] rendered as [w] upper-case hexadecimal digits, zero-padded. *)
Fixpoint hex_field (w : nat) (n : Z) : bytes :=
  match w with
  | O => []
  | S w' => hex_field w' (n / 16) ++ [upper_hex_digit (n mod 16)]
  end.

(** The sum of the unsigned byte values of [s]. *)
Fixpoint byte_total (s : bytes) : Z :=
  match s with
  | [] => 0
  | x :: r => byte_val x + byte_total r
  end.

(** The checksum field over a checksum body. *)
Definition checksum_field (body : bytes) : bytes :=
  hex_field 4 (byte_total body mod 65536).

Definition CRLF : bytes := [x0d; x0a].

(** [n] as [w] lower-case digits: what the [x] format yields when [n]
    fits in [w] digits. *)
Fixpoint text_field (w : nat) (n : Z) : text :=
  match w with
  | O => []
  | S w' => text_field w' (n / 16) ++ [hex_digit (n mod 16)]
  end.

(** What the table of hexadecimal digits is checked for, digit by digit:
    the upper-cased digit of the [x] format is ASCII, encodes to the
    upper-case digit, and that is neither the separator nor white space. *)
Definition digit_ok (d : Z) : bool :=
  let c := if in_range 97 122 (hex_digit d) then (hex_digit d - 32)%N else hex_digit d in
  (c <? 128)%N && Byte.eqb (byte_of_N c) (upper_hex_digit d)
  && negb (Byte.eqb (upper_hex_digit d) ";") && (Byte.to_N (upper_hex_digit d) <? 128)%N
  && negb (is_bytes_space (upper_hex_digit d)).

(** A frame the validator accepts for address [a]: start marker, address
    field, a payload without separator, the separator, the checksum of
    address field and payload, and then either nothing or a further
    separator and anything. *)
Definition well_formed (a : Z) (packet : bytes) : Prop :=
  exists payload rest,
    packet = b ">" ++ (hex_field 2 a ++ payload) ++ b ";"
               ++ checksum_field (hex_field 2 a ++ payload) ++ rest
    /\ ~ In ";"%byte payload
    /\ (rest = [] \/ exists v, rest = ";"%byte :: v).

(** The packet echoed back as a response: start marker [>] in place of
    [<], line ending stripped. *)
Definition response_shaped_echo (packet : bytes) : bytes :=
  strip (b ">" ++ tl packet).

(** The status line of the protocol description, as [readline] returns
    it. *)
Definition example_response : bytes :=
  b ">01S,0,0,12627447,89716830841,3200,244535000,32400,1,404360,7927;0C74" ++ CRLF.

(** [_resp.split(b';')[0]] *)
Definition frame_body (frame : bytes) : bytes := hd [] (bytes_split ";" frame).

(** Two hexadecimal digit values with the same upper-case digit are equal. *)
Definition digits_differ (d e : Z) : bool :=
  implb (Byte.eqb (upper_hex_digit d) (upper_hex_digit e)) (d =? e).

(** A byte that cannot start a UTF-8 sequence. *)
Definition invalid_lead (x : byte) : bool :=
  in_range 128 193 (Byte.to_N x) || in_range 245 255 (Byte.to_N x).

(** * Properties *)

(** ** The monad *)

Lemma bind_ret_l {A B} (a : A) (k : A -> M B) : bind (ret a) k = k a.
Proof. unfold bind, ret. destruct (k a); reflexivity. Qed.

Lemma bind_raise_l {A B} (e : exn) (k : A -> M B) : bind (raise e) k = raise e.
Proof. reflexivity. Qed.

Lemma try_except_ret {A} (a : A) (h : M A) : try_except (ret a) h = ret a.
Proof. reflexivity. Qed.

Lemma try_except_raise {A} (e : exn) (h : M A) : try_except (raise e) h = h.
Proof. unfold try_except, raise. now destruct h. Qed.

Lemma bind_log_l {B} (ev : log_event) (k : unit -> M B) :
  bind (logging_error ev) k = (ev :: fst (k tt), snd (k tt)).
Proof. unfold bind, logging_error. destruct (k tt); reflexivity. Qed.

(** ** Bytes *)

Lemma byte_val_inj (x y : byte) : byte_val x = byte_val y -> x = y.
Proof.
  unfold byte_val. intros H. apply N2Z.inj in H.
  assert (E : Byte.of_N (Byte.to_N x) = Byte.of_N (Byte.to_N y)) by now rewrite H.
  rewrite !Byte.of_to_N in E. now inversion E.
Qed.

Lemma bytes_eqb_eq (x y : bytes) : bytes_eqb x y = true <-> x = y.
Proof. unfold bytes_eqb. destruct (list_eq_dec _ x y); split; congruence. Qed.

Lemma bytes_eqb_refl (x : bytes) : bytes_eqb x x = true.
Proof. now apply bytes_eqb_eq. Qed.

Lemma sum_bytes_from (s : bytes) (z : Z) :
  fold_left (fun acc x => acc + byte_val x) s z = z + byte_total s.
Proof.
  revert z. induction s as [|x r IH]; intros z; simpl.
  - lia.
  - rewrite IH. lia.
Qed.

Lemma sum_bytes_total (s : bytes) : sum_bytes s = byte_total s.
Proof. unfold sum_bytes. now rewrite sum_bytes_from. Qed.

(** ** Hexadecimal fields *)

Lemma text_field_zero (w : nat) : text_field w 0 = repeat 48%N w.
Proof.
  induction w as [|w IH]; simpl; [reflexivity|].
  change (0 / 16) with 0. rewrite IH. change (hex_digit (0 mod 16)) with 48%N.
  now rewrite <- repeat_cons.
Qed.

Lemma hex_digits_pad (fuel : nat) :
  forall (n : Z) (k : nat) (acc : text),
    0 <= n < 16 ^ Z.of_nat fuel -> n < 16 ^ Z.of_nat k ->
    (1 <= fuel)%nat -> (1 <= k)%nat ->
    repeat 48%N (k + length acc - length (hex_digits fuel n acc))
      ++ hex_digits fuel n acc
    = text_field k n ++ acc.
Proof.
  induction fuel as [|f IH]; intros n k acc Hn Hk Hf Hk1; [lia|].
  destruct k as [|k]; [lia|].
  cbn [hex_digits text_field].
  destruct (Z.eqb_spec (n / 16) 0) as [E|E].
  - rewrite E, text_field_zero. cbn [length].
    replace (S k + length acc - S (length acc))%nat with k by lia.
    now rewrite <- app_assoc.
  - assert (H16 : 16 <= n).
    { destruct (Z_lt_le_dec n 16) as [L|L]; [|exact L].
      exfalso; apply E, Z.div_small; lia. }
    rewrite Nat2Z.inj_succ, Z.pow_succ_r in Hn, Hk by lia.
    destruct f as [|f]; [simpl in Hn; lia|].
    destruct k as [|k]; [simpl in Hk; lia|].
    specialize (IH (n / 16) (S k) (hex_digit (n mod 16) :: acc)).
    cbn [length] in IH.
    replace (S (S k) + length acc)%nat with (S k + S (length acc))%nat by lia.
    rewrite IH; try lia.
    + now rewrite <- app_assoc.
    + split; [apply Z.div_pos; lia|].
      apply Z.div_lt_upper_bound; lia.
    + apply Z.div_lt_upper_bound; lia.
Qed.

Lemma format_0x_field (w : nat) (n : Z) :
  (1 <= w)%nat -> 0 <= n < 16 ^ Z.of_nat w -> format_0x w n = text_field w n.
Proof.
  intros Hw Hn. unfold format_0x.
  destruct (Z.ltb_spec n 0) as [L|_]; [lia|].
  rewrite Z.abs_eq by lia. cbn [app length].
  rewrite Nat.sub_0_r.
  pose proof (hex_digits_pad (S (Z.to_nat (Z.log2 n))) n w []) as P.
  cbn [length] in P. rewrite Nat.add_0_r, app_nil_r in P.
  apply P; try lia.
  split; [lia|].
  destruct (Z.eq_dec n 0) as [->|N0]; [reflexivity|].
  rewrite Nat2Z.inj_succ, Z2Nat.id by apply Z.log2_nonneg.
  apply Z.lt_le_trans with (2 ^ Z.succ (Z.log2 n)).
  - apply Z.log2_spec; lia.
  - apply Z.pow_le_mono_l. lia.
Qed.

Lemma encode_ascii (s : text) :
  Forall (fun c => (c < 128)%N) s -> encode s = ret (map byte_of_N s).
Proof.
  induction 1 as [|c r Hc _ IH]; [reflexivity|].
  cbn [encode map]. unfold utf8_encode_char.
  destruct (N.ltb_spec c 128) as [_|L]; [|lia].
  now rewrite IH, bind_ret_l.
Qed.

Lemma hex_digit_table (d : Z) : 0 <= d < 16 -> digit_ok d = true.
Proof.
  intros H.
  assert (I : In d [0; 1; 2; 3; 4; 5; 6; 7; 8; 9; 10; 11; 12; 13; 14; 15])
    by (simpl; lia).
  clear H. revert d I. apply forallb_forall. reflexivity.
Qed.

Lemma upper_text_field (w : nat) (n : Z) :
  Forall (fun c => (c < 128)%N) (upper (text_field w n))
  /\ map byte_of_N (upper (text_field w n)) = hex_field w n.
Proof.
  revert n. induction w as [|w IH]; intros n; cbn [text_field hex_field].
  - split; [constructor | reflexivity].
  - destruct (IH (n / 16)) as [F E].
    pose proof (hex_digit_table (n mod 16) (Z.mod_pos_bound n 16 eq_refl)) as T.
    unfold digit_ok, in_range in T.
    apply andb_prop in T as [T _]. apply andb_prop in T as [T _].
    apply andb_prop in T as [T _]. apply andb_prop in T as [T1 T2].
    apply N.ltb_lt in T1. apply Byte.byte_dec_bl in T2.
    unfold upper in *. rewrite map_app, map_app. cbn [map].
    split.
    + apply Forall_app. split; [exact F | constructor; [exact T1 | constructor]].
    + now rewrite E, T2.
Qed.

Lemma encode_hex_field (w : nat) (n : Z) :
  (1 <= w)%nat -> 0 <= n < 16 ^ Z.of_nat w ->
  encode (upper (format_0x w n)) = ret (hex_field w n).
Proof.
  intros Hw Hn. rewrite format_0x_field by assumption.
  destruct (upper_text_field w n) as [F E].
  now rewrite encode_ascii, E.
Qed.

Lemma encode_address (a : Z) :
  1 <= a <= 254 -> encode (upper (format_0x 2 a)) = ret (hex_field 2 a).
Proof. intros H. apply encode_hex_field; [lia | simpl; lia]. Qed.

Lemma encode_checksum (body : bytes) :
  encode (upper (format_0x 4 (sum_bytes body mod 65536))) = ret (checksum_field body).
Proof.
  unfold checksum_field. rewrite <- sum_bytes_total.
  apply encode_hex_field; [lia|].
  change (16 ^ Z.of_nat 4) with 65536. apply Z.mod_pos_bound. lia.
Qed.

Lemma hex_field_length (w : nat) (n : Z) : length (hex_field w n) = w.
Proof.
  revert n. induction w as [|w IH]; intros n; simpl; [reflexivity|].
  rewrite length_app, IH. simpl. lia.
Qed.

Lemma construct_packet_bytes (a : Z) (c : bytes) :
  1 <= a <= 254 ->
  construct_packet {| address := a |} (Bytes c)
  = ret (b "<" ++ (hex_field 2 a ++ c) ++ b ";"
           ++ checksum_field (hex_field 2 a ++ c) ++ CRLF).
Proof.
  intros Ha. unfold construct_packet. cbn [address].
  now rewrite bind_ret_l, encode_address, bind_ret_l, encode_checksum, bind_ret_l.
Qed.

Lemma hex_field_digits (w : nat) (n : Z) :
  Forall (fun x => x <> ";"%byte /\ (Byte.to_N x < 128)%N /\ is_bytes_space x = false)
         (hex_field w n).
Proof.
  revert n. induction w as [|w IH]; intros n; cbn [hex_field]; [constructor|].
  apply Forall_app. split; [apply IH|]. constructor; [|constructor].
  pose proof (hex_digit_table (n mod 16) (Z.mod_pos_bound n 16 eq_refl)) as T.
  unfold digit_ok in T.
  apply andb_prop in T as [T T3]. apply andb_prop in T as [T T2].
  apply andb_prop in T as [_ T1].
  repeat split.
  - intros E. rewrite E in T1. discriminate.
  - now apply N.ltb_lt.
  - now destruct (is_bytes_space _).
Qed.

Lemma hex_field_nosep (w : nat) (n : Z) : ~ In ";"%byte (hex_field w n).
Proof.
  intros I. pose proof (hex_field_digits w n) as F.
  rewrite Forall_forall in F. now destruct (F _ I).
Qed.

(** ** Splitting *)

Section Split.
Context {A : Type} (eqb : A -> A -> bool) (sep : A).
Hypothesis eqb_eq : forall x y, eqb x y = true <-> x = y.

Lemma split_nonempty (s : list A) : split eqb sep s <> [].
Proof.
  destruct s as [|x r]; simpl; [discriminate|].
  destruct (eqb x sep); [discriminate|].
  destruct (split eqb sep r); discriminate.
Qed.

Lemma eqb_neq (x : A) : x <> sep -> eqb x sep = false.
Proof.
  intros N. destruct (eqb x sep) eqn:E; [|reflexivity].
  now apply eqb_eq in E.
Qed.

Lemma split_nosep (s : list A) : ~ In sep s -> split eqb sep s = [s].
Proof.
  induction s as [|x r IH]; intros N; simpl; [reflexivity|].
  rewrite eqb_neq by (intros ->; apply N; now left).
  rewrite IH; [reflexivity|]. intros I; apply N; now right.
Qed.

Lemma split_app_sep (p v : list A) :
  ~ In sep p -> split eqb sep (p ++ sep :: v) = p :: split eqb sep v.
Proof.
  induction p as [|x r IH]; intros N; simpl.
  - now rewrite (proj2 (eqb_eq sep sep) eq_refl).
  - rewrite eqb_neq by (intros ->; apply N; now left).
    rewrite IH; [reflexivity|]. intros I; apply N; now right.
Qed.

Lemma split_decompose (s : list A) :
  ~ In sep s \/ exists p v, s = p ++ sep :: v /\ ~ In sep p.
Proof.
  induction s as [|x r IH].
  - left. intros [].
  - destruct (eqb x sep) eqn:E.
    + apply eqb_eq in E. subst x. right. exists [], r. split; [reflexivity | intros []].
    + assert (N : x <> sep).
      { intros ->. now rewrite (proj2 (eqb_eq sep sep) eq_refl) in E. }
      destruct IH as [IH | (p & v & -> & Np)].
      * left. intros [I|I]; [now apply N | now apply IH].
      * right. exists (x :: p), v. split; [reflexivity|].
        intros [I|I]; [now apply N | now apply Np].
Qed.

(** The first piece is followed by the end of the text or by a
    separator. *)
Lemma split_first_piece (s piece : list A) (pieces : list (list A)) :
  split eqb sep s = piece :: pieces ->
  ~ In sep piece /\ (s = piece \/ exists v, s = piece ++ sep :: v).
Proof.
  intros E. destruct (split_decompose s) as [N | (p & v & -> & Np)].
  - rewrite split_nosep in E by exact N. inversion E; subst. split; [exact N | now left].
  - rewrite split_app_sep in E by exact Np. inversion E; subst.
    split; [exact Np | right; now exists v].
Qed.

Lemma split_head (p rest : list A) :
  ~ In sep p -> rest = [] \/ (exists v, rest = sep :: v) ->
  exists pieces, split eqb sep (p ++ rest) = p :: pieces.
Proof.
  intros N [-> | (v & ->)].
  - rewrite app_nil_r, split_nosep by exact N. now exists [].
  - rewrite split_app_sep by exact N. now eexists.
Qed.
End Split.

Lemma byte_eqb_eq (x y : byte) : Byte.eqb x y = true <-> x = y.
Proof. split; [apply Byte.byte_dec_bl | apply Byte.byte_dec_lb]. Qed.

(** ** Validation *)

Lemma validate_packet_accepts (a : Z) (packet : bytes) :
  1 <= a <= 254 -> well_formed a packet ->
  validate_packet {| address := a |} packet = ret true.
Proof.
  intros Ha (payload & rest & -> & Np & Hrest).
  unfold validate_packet. cbn [address].
  change (b ">") with [">"%byte]. change (b ";") with [";"%byte].
  cbn [app index nth_error]. rewrite bind_ret_l.
  change (byte_val ">" =? 62) with true. cbn [negb].
  rewrite encode_address, bind_ret_l by exact Ha.
  assert (S13 : forall t, slice (">"%byte :: (hex_field 2 a ++ payload) ++ t) 1 3
                          = hex_field 2 a).
  { intros t. unfold slice. cbn [Nat.sub skipn hex_field app firstn]. reflexivity. }
  rewrite S13, bytes_eqb_refl. cbn [negb].
  assert (Nb : ~ In ";"%byte (">"%byte :: hex_field 2 a ++ payload)).
  { intros [I|I]; [discriminate|]. apply in_app_or in I as [I|I];
      [now apply hex_field_nosep in I | now apply Np]. }
  unfold bytes_split.
  change (">"%byte :: (hex_field 2 a ++ payload) ++ ";"%byte :: ?t)
    with ((">"%byte :: hex_field 2 a ++ payload) ++ ";"%byte :: t).
  rewrite (split_app_sep _ _ byte_eqb_eq) by exact Nb.
  destruct (split_head Byte.eqb ";"%byte byte_eqb_eq
              (checksum_field (hex_field 2 a ++ payload)) rest
              (hex_field_nosep _ _) Hrest) as (pieces & ->).
  cbn [index nth_error]. rewrite !bind_ret_l, try_except_ret, bind_ret_l.
  cbn [slice_from skipn]. rewrite encode_checksum, bind_ret_l, bytes_eqb_refl.
  reflexivity.
Qed.

Lemma validate_packet_nil (self : PM10AHDS) :
  validate_packet self [] = raise IndexError.
Proof. reflexivity. Qed.

Lemma validate_packet_bad_som (self : PM10AHDS) (som : byte) (p : bytes) :
  som <> ">"%byte ->
  validate_packet self (som :: p) = ([LogNoSOM], Return false).
Proof.
  intros N. unfold validate_packet. cbn [index nth_error]. rewrite bind_ret_l.
  destruct (Z.eqb_spec (byte_val som) 62) as [E|_]; [|reflexivity].
  exfalso. apply N. now apply byte_val_inj.
Qed.

Lemma validate_packet_no_sep (a : Z) (p : bytes) :
  1 <= a <= 254 -> slice (">"%byte :: p) 1 3 = hex_field 2 a ->
  ~ In ";"%byte p ->
  validate_packet {| address := a |} (">"%byte :: p) = ([LogNoChecksum], Return false).
Proof.
  intros Ha Hs Np. unfold validate_packet. cbn [address index nth_error].
  rewrite bind_ret_l. change (byte_val ">" =? 62) with true. cbn [negb].
  rewrite encode_address, bind_ret_l, Hs, bytes_eqb_refl by exact Ha. cbn [negb].
  unfold bytes_split. rewrite (split_nosep _ _ byte_eqb_eq).
  - reflexivity.
  - intros [I|I]; [discriminate | now apply Np].
Qed.

Lemma validate_packet_true_inv (a : Z) (packet : bytes) (l : list log_event) :
  1 <= a <= 254 ->
  validate_packet {| address := a |} packet = (l, Return true) ->
  l = [] /\ well_formed a packet.
Proof.
  intros Ha. destruct packet as [|som p]; [discriminate|].
  destruct (Byte.byte_eq_dec som ">"%byte) as [->|N];
    [|rewrite validate_packet_bad_som by exact N; discriminate].
  unfold validate_packet. cbn [address index nth_error].
  rewrite bind_ret_l. change (byte_val ">" =? 62) with true. cbn [negb].
  rewrite encode_address, bind_ret_l by exact Ha.
  destruct (bytes_eqb (slice (">"%byte :: p) 1 3) (hex_field 2 a)) eqn:Es;
    [|discriminate].
  apply bytes_eqb_eq in Es. cbn [negb].
  unfold bytes_split.
  destruct (split_decompose Byte.eqb ";"%byte byte_eqb_eq (">"%byte :: p))
    as [Nsep | (body & v & Ep & Nb)].
  { rewrite (split_nosep _ _ byte_eqb_eq) by exact Nsep. discriminate. }
  rewrite Ep, (split_app_sep _ _ byte_eqb_eq) by exact Nb.
  destruct (split Byte.eqb ";"%byte v) as [|cs pieces] eqn:Ev;
    [now apply split_nonempty in Ev|].
  cbn [index nth_error]. rewrite !bind_ret_l, try_except_ret, bind_ret_l.
  rewrite encode_checksum, bind_ret_l.
  destruct (bytes_eqb cs (checksum_field (slice_from body 1))) eqn:Ec;
    [|discriminate].
  apply bytes_eqb_eq in Ec. cbn [negb]. intros E. inversion E; subst l. clear E.
  split; [reflexivity|].
  apply (split_first_piece _ _ byte_eqb_eq) in Ev as [_ Hv].
  (* the body starts with the marker and the two address digits *)
  destruct body as [|x body]; [discriminate Ep|].
  injection Ep as <- Ep. subst p.
  pose proof (hex_field_nosep 2 a) as Nh.
  unfold slice in Es. cbn [Nat.sub skipn] in Es.
  destruct body as [|d1 [|d2 payload]].
  - exfalso. apply Nh. rewrite <- Es. now left.
  - exfalso. apply Nh. rewrite <- Es. right. now left.
  - cbn [app firstn] in Es.
    exists payload, (skipn 4 v).
    unfold slice_from in Ec. cbn [skipn] in Ec. rewrite <- Es in *.
    change (b ">") with [">"%byte]. change (b ";") with [";"%byte].
    repeat split.
    + cbn [app]. do 4 f_equal.
      destruct Hv as [-> | (w & ->)].
      * rewrite <- Ec. rewrite skipn_all2 by (rewrite Ec; reflexivity).
        now rewrite app_nil_r.
      * rewrite <- Ec. rewrite skipn_app.
        rewrite skipn_all2 by (rewrite Ec; reflexivity).
        replace (4 - length cs)%nat with 0%nat by (rewrite Ec; reflexivity).
        reflexivity.
    + intros I. apply Nb. right. right. now right.
    + destruct Hv as [-> | (w & ->)].
      * left. apply skipn_all2. rewrite Ec. reflexivity.
      * right. exists w. rewrite skipn_app, skipn_all2 by (rewrite Ec; reflexivity).
        replace (4 - length cs)%nat with 0%nat by (rewrite Ec; reflexivity).
        reflexivity.
Qed.

Lemma strip_line (x last : byte) (s : bytes) :
  is_bytes_space x = false -> is_bytes_space last = false ->
  strip (x :: s ++ last :: CRLF) = x :: s ++ [last].
Proof.
  intros Hx Hl. unfold strip. cbn [lstrip]. rewrite Hx.
  change (x :: s ++ last :: CRLF) with ((x :: s) ++ [last; x0d; x0a]).
  rewrite rev_app_distr. cbn [rev app lstrip].
  change (is_bytes_space x0a) with true. change (is_bytes_space x0d) with true.
  cbn iota. rewrite Hl. cbn [rev]. now rewrite rev_app_distr, !rev_involutive.
Qed.

Lemma checksum_field_last (body : bytes) :
  exists s last, checksum_field body = s ++ [last] /\ is_bytes_space last = false.
Proof.
  unfold checksum_field. cbn [hex_field]. eexists. eexists. split; [reflexivity|].
  pose proof (hex_field_digits 1 (byte_total body mod 65536)) as F.
  cbn [hex_field app] in F. inversion F as [|? ? (_ & _ & H) _]. exact H.
Qed.

Lemma body_shape (a : Z) (p body v : bytes) :
  ">"%byte :: p = body ++ ";"%byte :: v -> ~ In ";"%byte body ->
  slice (">"%byte :: p) 1 3 = hex_field 2 a ->
  exists payload, body = ">"%byte :: hex_field 2 a ++ payload.
Proof.
  intros Ep Nb Es.
  destruct body as [|x body]; [discriminate Ep|].
  injection Ep as <- Ep. subst p.
  pose proof (hex_field_nosep 2 a) as Nh.
  unfold slice in Es. cbn [Nat.sub skipn] in Es.
  destruct body as [|d1 [|d2 payload]].
  - exfalso. apply Nh. rewrite <- Es. now left.
  - exfalso. apply Nh. rewrite <- Es. right. now left.
  - cbn [app firstn] in Es. exists payload. now rewrite <- Es.
Qed.

(** C3: for every address in [1,254] and every command given as bytes,
    [construct_packet] returns, without logging and without raising,
    exactly [<], the address as 2 upper-case hexadecimal digits, the
    command, [;], the sum of the byte values of address digits and command
    modulo 65536 as 4 upper-case zero-padded hexadecimal digits, and CR LF. *)
Theorem construct_packet_exact (a : Z) (c : bytes) :
  1 <= a <= 254 ->
  construct_packet {| address := a |} (Bytes c)
  = ([], Return (b "<" ++ hex_field 2 a ++ c ++ b ";"
                   ++ hex_field 4 (byte_total (hex_field 2 a ++ c) mod 65536)
                   ++ CRLF)).
Proof.
  intros Ha. rewrite construct_packet_bytes by exact Ha.
  unfold ret, checksum_field. now rewrite <- app_assoc.
Qed.

Lemma construct_packet_exact_witness :
  1 <= 1 <= 254 /\
  construct_packet {| address := 1 |} (Bytes (b "S,"))
  = ([], Return (b "<" ++ hex_field 2 1 ++ b "S," ++ b ";"
                   ++ hex_field 4 (byte_total (hex_field 2 1 ++ b "S,") mod 65536)
                   ++ CRLF)).
Proof. split; [lia | apply (construct_packet_exact 1 (b "S,")); lia]. Defined.

Lemma hex_field_hexdigits (w : nat) (n : Z) :
  Forall (fun x => In x HEXDIGITS) (hex_field w n).
Proof.
  revert n. induction w as [|w IH]; intros n; cbn [hex_field]; [constructor|].
  apply Forall_app. split; [apply IH|]. constructor; [|constructor].
  unfold upper_hex_digit. apply nth_In.
  change (length HEXDIGITS) with 16%nat.
  pose proof (Z.mod_pos_bound n 16 eq_refl). lia.
Qed.

(** C10, as amended: for every address in [1,254] and every command [c]
    given as bytes, the packet [construct_packet] returns is
    [length c + 10] bytes long: 1 start byte, 2 address digits, the
    command, 1 separator, 4 checksum digits and 2 line-ending bytes.  The
    address field is exactly 2 hexadecimal characters and the checksum
    field, the byte sum reduced modulo 65536 before formatting, exactly 4. *)
Theorem construct_packet_length (a : Z) (c : bytes) :
  1 <= a <= 254 ->
  exists addr cs : bytes,
    construct_packet {| address := a |} (Bytes c)
    = ([], Return (b "<" ++ addr ++ c ++ b ";" ++ cs ++ CRLF))
    /\ length addr = 2%nat /\ Forall (fun x => In x HEXDIGITS) addr
    /\ cs = hex_field 4 (byte_total (addr ++ c) mod 65536)
    /\ length cs = 4%nat /\ Forall (fun x => In x HEXDIGITS) cs
    /\ length (b "<" ++ addr ++ c ++ b ";" ++ cs ++ CRLF) = (length c + 10)%nat.
Proof.
  intros Ha. rewrite construct_packet_bytes by exact Ha.
  exists (hex_field 2 a), (hex_field 4 (byte_total (hex_field 2 a ++ c) mod 65536)).
  split; [unfold ret, checksum_field; now rewrite <- app_assoc|].
  split; [apply hex_field_length|].
  split; [apply hex_field_hexdigits|].
  split; [reflexivity|].
  split; [apply hex_field_length|].
  split; [apply hex_field_hexdigits|].
  rewrite !length_app, !hex_field_length.
  change (length (b "<")) with 1%nat. change (length (b ";")) with 1%nat.
  change (length CRLF) with 2%nat. lia.
Qed.

Lemma construct_packet_length_witness :
  1 <= 254 <= 254 /\
  exists addr cs : bytes,
    construct_packet {| address := 254 |} (Bytes (b "E,"))
    = ([], Return (b "<" ++ addr ++ b "E," ++ b ";" ++ cs ++ CRLF))
    /\ length addr = 2%nat /\ Forall (fun x => In x HEXDIGITS) addr
    /\ cs = hex_field 4 (byte_total (addr ++ b "E,") mod 65536)
    /\ length cs = 4%nat /\ Forall (fun x => In x HEXDIGITS) cs
    /\ length (b "<" ++ addr ++ b "E," ++ b ";" ++ cs ++ CRLF)
       = (length (b "E,") + 10)%nat.
Proof. split; [lia | apply (construct_packet_length 254 (b "E,")); lia]. Defined.

(** C10, as stated, fails: the status request of address 1 is 12 bytes
    long for a command of 2 bytes, not 13. *)
Lemma packet_length_not_11 :
  exists packet,
    construct_packet {| address := 1 |} (Bytes (b "S,")) = ([], Return packet)
    /\ length packet = 12%nat
    /\ length packet <> (length (b "S,") + 11)%nat.
Proof. eexists. split; [reflexivity | split; [reflexivity | discriminate]]. Qed.

(** C2, as amended: for every address in [1,254] and every command given
    as bytes that contains no [;], the packet [construct_packet] builds,
    echoed back as a response, is accepted by [validate_packet] for that
    address: the checksum embedded is the one the validator recomputes. *)
Theorem checksum_round_trip (a : Z) (c : bytes) :
  1 <= a <= 254 -> ~ In ";"%byte c ->
  exists packet,
    construct_packet {| address := a |} (Bytes c) = ([], Return packet)
    /\ validate_packet {| address := a |} (response_shaped_echo packet)
       = ([], Return true).
Proof.
  intros Ha Nc. rewrite construct_packet_bytes by exact Ha.
  eexists. split; [reflexivity|].
  unfold response_shaped_echo.
  change (b "<") with ["<"%byte]. change (b ">") with [">"%byte].
  cbn [app tl].
  destruct (checksum_field_last (hex_field 2 a ++ c)) as (s & last & Ecs & Hl).
  assert (E : (hex_field 2 a ++ c) ++ b ";" ++ checksum_field (hex_field 2 a ++ c) ++ CRLF
              = ((hex_field 2 a ++ c) ++ b ";" ++ s) ++ last :: CRLF).
  { rewrite Ecs, <- !app_assoc. reflexivity. }
  rewrite E, strip_line by (exact Hl || reflexivity).
  apply validate_packet_accepts; [exact Ha|].
  exists c, []. repeat split; [|exact Nc | now left].
  change (b ">") with [">"%byte]. cbn [app].
  rewrite Ecs, <- !app_assoc, app_nil_r. reflexivity.
Qed.

Lemma checksum_round_trip_witness :
  1 <= 1 <= 254 /\ ~ In ";"%byte (b "S,") /\
  exists packet,
    construct_packet {| address := 1 |} (Bytes (b "S,")) = ([], Return packet)
    /\ validate_packet {| address := 1 |} (response_shaped_echo packet)
       = ([], Return true).
Proof.
  assert (N : ~ In ";"%byte (b "S,")).
  { simpl. intros [H|[H|[]]]; discriminate H. }
  split; [lia | split; [exact N | apply (checksum_round_trip 1 (b "S,")); [lia | exact N]]].
Defined.

(** C2, as stated, fails: the command [;] at address 1 gives a packet
    whose echo the validator rejects. *)
Lemma round_trip_fails_on_separator :
  construct_packet {| address := 1 |} (Bytes (b ";"))
  = ([], Return (b "<01;;009C" ++ CRLF))
  /\ validate_packet {| address := 1 |} (response_shaped_echo (b "<01;;009C" ++ CRLF))
     = ([LogChecksumMismatch (b "0061") []], Return false).
Proof. split; vm_compute; reflexivity. Qed.

(** C6, as amended: for every frame that passes the start-marker and
    address checks, validation fails with the record of a missing checksum
    part when the frame has no [;]; when validation succeeds, the checksum
    compared is exactly the 4 bytes after the first [;], and what follows
    them is nothing or a further [;]; and a frame with a further [;] after
    a matching checksum is accepted, whatever comes after it. *)
Theorem validate_packet_separator (a : Z) (packet : bytes) :
  1 <= a <= 254 ->
  nth_error packet 0 = Some ">"%byte -> slice packet 1 3 = hex_field 2 a ->
  (~ In ";"%byte packet ->
   validate_packet {| address := a |} packet = ([LogNoChecksum], Return false))
  /\ (forall l, validate_packet {| address := a |} packet = (l, Return true) ->
      exists body rest,
        packet = body ++ b ";" ++ checksum_field (slice_from body 1) ++ rest
        /\ ~ In ";"%byte body
        /\ length (checksum_field (slice_from body 1)) = 4%nat
        /\ (rest = [] \/ exists v, rest = ";"%byte :: v))
  /\ (forall body v,
      packet = body ++ b ";" ++ checksum_field (slice_from body 1) ++ b ";" ++ v ->
      ~ In ";"%byte body ->
      validate_packet {| address := a |} packet = ([], Return true)).
Proof.
  intros Ha H0 Hs.
  destruct packet as [|som p]; [discriminate H0|].
  injection H0 as ->.
  split; [|split].
  - intros N. apply validate_packet_no_sep; [exact Ha | exact Hs|].
    intros I. apply N. now right.
  - intros l V. apply validate_packet_true_inv in V as [_ W]; [|exact Ha].
    destruct W as (payload & rest & E & Np & Hrest).
    exists (">"%byte :: hex_field 2 a ++ payload), rest.
    split; [exact E | split; [|split; [apply hex_field_length | exact Hrest]]].
    intros [I|I]; [discriminate|].
    apply in_app_or in I as [I|I]; [now apply hex_field_nosep in I | now apply Np].
  - intros body v E Nb.
    change (b ";") with [";"%byte] in E. cbn [app] in E.
    destruct (body_shape a p body _ E Nb Hs) as (payload & ->).
    apply validate_packet_accepts; [exact Ha|].
    exists payload, (";"%byte :: v).
    split; [exact E | split; [|right; now exists v]].
    intros I. apply Nb. right. apply in_or_app. now right.
Qed.

Lemma validate_packet_separator_witness :
  let packet := b ">01S;00B4" in
  1 <= 1 <= 254 /\ nth_error packet 0 = Some ">"%byte
  /\ slice packet 1 3 = hex_field 2 1
  /\ (~ In ";"%byte packet ->
      validate_packet {| address := 1 |} packet = ([LogNoChecksum], Return false))
  /\ (forall l, validate_packet {| address := 1 |} packet = (l, Return true) ->
      exists body rest,
        packet = body ++ b ";" ++ checksum_field (slice_from body 1) ++ rest
        /\ ~ In ";"%byte body
        /\ length (checksum_field (slice_from body 1)) = 4%nat
        /\ (rest = [] \/ exists v, rest = ";"%byte :: v))
  /\ (forall body v,
      packet = body ++ b ";" ++ checksum_field (slice_from body 1) ++ b ";" ++ v ->
      ~ In ";"%byte body ->
      validate_packet {| address := 1 |} packet = ([], Return true)).
Proof.
  intros packet.
  assert (Ha : 1 <= 1 <= 254) by lia.
  split; [exact Ha | split; [reflexivity | split; [reflexivity|]]].
  exact (validate_packet_separator 1 packet Ha eq_refl eq_refl).
Defined.

(** C6, as stated, fails: a frame with two [;] that passes the
    start-marker and address checks is accepted. *)
Lemma second_separator_accepted :
  let packet := b ">01S;00B4;zzz" in
  nth_error packet 0 = Some ">"%byte
  /\ slice packet 1 3 = hex_field 2 1
  /\ count_occ Byte.byte_eq_dec packet ";"%byte = 2%nat
  /\ validate_packet {| address := 1 |} packet = ([], Return true).
Proof. vm_compute. repeat split. Qed.

(** C7: the code departs from it on the empty frame.  [validate_packet]
    raises [IndexError] on an empty packet, for every driver, and
    [request_status] reaches that: a response of only a line ending is not
    empty as read, and empty once stripped. *)
Theorem validate_packet_empty_raises :
  (forall self, validate_packet self [] = ([], Raise IndexError))
  /\ (forall self, status_response self (Some CRLF) = ([], Raise IndexError)).
Proof. split; intros self; reflexivity. Qed.

(** ** The status response *)

(** C1, as amended: the example status response decodes, for address 1,
    to runtime 12627447 s (field 3), energy
    89716830841 x 2.7777777777778e-10, which is about 24.92 kWh, power
    3.2 W, voltage 244.535 V, current 0.0324 A, lag, power factor 0.40436
    and apparent power 7.927 VA. *)
Theorem status_example :
  status_response {| address := 1 |} (Some example_response)
  = ([], Return (Some {| runtime_seconds := 12627447;
                         energy_kwh := 89716830841 * 2.7777777777778E-10;
                         power_w := 3.2;
                         voltage_v := 244.535;
                         current_a := 0.0324;
                         powerfactor_leadlag := u "lag";
                         powerfactor := 0.40436;
                         apparent_power_va := 7.927 |}))
  /\ (24.92 <=? 89716830841 * 2.7777777777778E-10)%float = true
  /\ (89716830841 * 2.7777777777778E-10 <? 24.93)%float = true.
Proof. split; [vm_compute; reflexivity | split; vm_compute; reflexivity]. Qed.

(** C1, as stated, fails: the runtime decoded from the example is field 3,
    12627447, not 0, and the energy is below 25 kWh, not about 35.07. *)
Lemma example_runtime_not_zero :
  exists st,
    status_response {| address := 1 |} (Some example_response) = ([], Return (Some st))
    /\ runtime_seconds st = 12627447
    /\ runtime_seconds st <> 0
    /\ (energy_kwh st <? 35.065)%float = true.
Proof.
  exists {| runtime_seconds := 12627447;
            energy_kwh := 89716830841 * 2.7777777777778E-10;
            power_w := 3.2;
            voltage_v := 244.535;
            current_a := 0.0324;
            powerfactor_leadlag := u "lag";
            powerfactor := 0.40436;
            apparent_power_va := 7.927 |}.
  split; [vm_compute; reflexivity|].
  split; [reflexivity|]. split; [discriminate | vm_compute; reflexivity].
Qed.

(** ** The erase response *)

(** C5: the code departs from it.  [request_erase] never calls the
    validator: a response with another address, and one with a wrong
    checksum, both of which [validate_packet] rejects and
    [request_status] turns down, are taken as the acknowledgement. *)
Theorem erase_response_unvalidated :
  let self := {| address := 1 |} in
  let wrong_address := b ">02E;00A7" ++ CRLF in
  let wrong_checksum := b ">01E;FFFF" ++ CRLF in
  validate_packet self (strip wrong_address)
  = ([LogAddressMismatch (b "02") 1], Return false)
  /\ status_response self (Some wrong_address)
     = ([LogAddressMismatch (b "02") 1], Return None)
  /\ erase_response self (Some wrong_address) = ([], Return (Some true))
  /\ validate_packet self (strip wrong_checksum)
     = ([LogChecksumMismatch (b "00A6") (b "FFFF")], Return false)
  /\ status_response self (Some wrong_checksum)
     = ([LogChecksumMismatch (b "00A6") (b "FFFF")], Return None)
  /\ erase_response self (Some wrong_checksum) = ([], Return (Some true))
  /\ snd (request_erase self {| written := []; incoming := [wrong_address] |})
     = ([], Return (Some true)).
Proof. vm_compute. repeat split. Qed.

(** C4, as stated, fails: a validated response of type [X] is answered
    with a plain [False]. *)
Lemma erase_response_plain_false :
  let self := {| address := 1 |} in
  let resp := b ">01X;00B9" ++ CRLF in
  validate_packet self (strip resp) = ([], Return true)
  /\ nth_error (strip resp) 3 = Some "X"%byte
  /\ erase_response self (Some resp) = ([LogUnknownErase], Return (Some false)).
Proof. vm_compute. repeat split. Qed.

Lemma bind_return {A B} (a : A) (k : A -> M B) : bind ([], Return a) k = k a.
Proof. apply bind_ret_l. Qed.

Lemma bind_inv {A B} (m : M A) (k : A -> M B) (y : B) :
  bind m k = ([], Return y) ->
  exists a, m = ([], Return a) /\ k a = ([], Return y).
Proof.
  unfold bind. destruct m as [l [a|e]]; [|discriminate].
  destruct (k a) as [l' r] eqn:E. intros H. inversion H as [[H1 H2]].
  apply app_eq_nil in H1 as [-> ->]. subst r. now exists a.
Qed.

Lemma index_nth {A} (s : list A) (i : nat) (x : A) :
  nth_error s i = Some x -> index s i = ([], Return x).
Proof. unfold index. now intros ->. Qed.

Lemma index_split_0 {A} (eqb : A -> A -> bool) (sep : A) (s : list A) :
  index (split eqb sep s) 0 = ([], Return (hd [] (split eqb sep s))).
Proof.
  destruct (split eqb sep s) eqn:E; [now apply split_nonempty in E | reflexivity].
Qed.

Lemma in_range_spec (lo hi n : N) :
  in_range lo hi n = true <-> (lo <= n <= hi)%N.
Proof.
  unfold in_range. rewrite andb_true_iff, !N.leb_le. reflexivity.
Qed.

Lemma byte_to_N_inj (x y : byte) : Byte.to_N x = Byte.to_N y -> x = y.
Proof. intros H. apply byte_val_inj. unfold byte_val. now rewrite H. Qed.

(** The first character of a decoded text is [E] exactly when the first
    byte is. *)
Lemma decode_head (x : byte) (r : bytes) (t : text) :
  decode (x :: r) = ([], Return t) ->
  exists c t', t = c :: t' /\ (c = 69%N <-> x = "E"%byte).
Proof.
  cbn [decode].
  destruct (N.ltb_spec (Byte.to_N x) 128) as [L|L].
  { intros H. apply bind_inv in H as (t' & _ & H). inversion H.
    exists (Byte.to_N x), t'. split; [reflexivity|].
    split; [intros E; now apply byte_to_N_inj | now intros ->]. }
  assert (NE : x <> "E"%byte) by (intros ->; vm_compute in L; now apply L).
  destruct (in_range 194 223 (Byte.to_N x)) eqn:R2.
  { apply in_range_spec in R2.
    destruct r as [|b1 r1]; [discriminate|].
    destruct (in_range 128 191 (Byte.to_N b1)) eqn:C1; [|discriminate].
    apply in_range_spec in C1.
    intros H. apply bind_inv in H as (t' & _ & H). inversion H.
    eexists. exists t'. split; [reflexivity|]. split; [lia | now intros E]. }
  destruct (in_range 224 239 (Byte.to_N x)) eqn:R3.
  { apply in_range_spec in R3.
    destruct r as [|b1 [|b2 r2]]; [discriminate | discriminate|].
    match goal with |- context [if ?c then _ else _] => destruct c eqn:C end;
      [|discriminate].
    apply andb_prop in C as [C1 C2].
    apply in_range_spec in C1. apply in_range_spec in C2.
    intros H. apply bind_inv in H as (t' & _ & H). inversion H.
    eexists. exists t'. split; [reflexivity|]. split; [|now intros E].
    revert C1. destruct (N.eqb_spec (Byte.to_N x) 224); intros C1; lia. }
  destruct (in_range 240 244 (Byte.to_N x)) eqn:R4; [|discriminate].
  apply in_range_spec in R4.
  destruct r as [|b1 [|b2 [|b3 r3]]]; [discriminate | discriminate | discriminate|].
  match goal with |- context [if ?c then _ else _] => destruct c eqn:C end;
    [|discriminate].
  apply andb_prop in C as [C C3]. apply andb_prop in C as [C1 C2].
  apply in_range_spec in C1. apply in_range_spec in C2. apply in_range_spec in C3.
  intros H. apply bind_inv in H as (t' & _ & H). inversion H.
  eexists. exists t'. split; [reflexivity|]. split; [|now intros E].
  revert C1. destruct (N.eqb_spec (Byte.to_N x) 240); intros C1; lia.
Qed.

Lemma decode_ascii_cons (x : byte) (r : bytes) (t : text) :
  (Byte.to_N x < 128)%N -> decode (x :: r) = ([], Return t) ->
  exists t', t = Byte.to_N x :: t' /\ decode r = ([], Return t').
Proof.
  intros L. cbn [decode].
  destruct (N.ltb_spec (Byte.to_N x) 128) as [_|G]; [|lia].
  intros H. apply bind_inv in H as (t' & D & H). inversion H. now exists t'.
Qed.

(** C4, as amended: on a validated response that decodes as text,
    [request_erase] returns [True] when the byte at offset 3 is [E], and
    for any other byte there it logs the unknown response and returns a
    plain [False]. *)
Theorem erase_response_type_byte (a : Z) (resp : bytes) (t : text) :
  1 <= a <= 254 ->
  validate_packet {| address := a |} (strip resp) = ([], Return true) ->
  decode (strip resp) = ([], Return t) ->
  (nth_error (strip resp) 3 = Some "E"%byte ->
   erase_response {| address := a |} (Some resp) = ([], Return (Some true)))
  /\ (nth_error (strip resp) 3 <> Some "E"%byte ->
      erase_response {| address := a |} (Some resp)
      = ([LogUnknownErase], Return (Some false))).
Proof.
  intros Ha V D.
  destruct resp as [|x0 r0]; [discriminate V|].
  unfold erase_response.
  remember (strip (x0 :: r0)) as frame eqn:Ef. clear Ef.
  apply validate_packet_true_inv in V as [_ (payload & rest & E & _ & _)];
    [|exact Ha].
  pose proof (hex_field_digits 2 a) as F.
  change (b ">") with [">"%byte] in E. change (b ";") with [";"%byte] in E.
  cbn [hex_field app] in E, F.
  pose proof (Forall_inv F) as (_ & L1 & _).
  pose proof (Forall_inv (Forall_inv_tail F)) as (_ & L2 & _).
  assert (T : exists x r, frame = ">"%byte :: upper_hex_digit (a / 16 mod 16)
                                    :: upper_hex_digit (a mod 16) :: x :: r).
  { destruct payload as [|p0 ps]; rewrite E; cbn [app]; eauto. }
  destruct T as (x & r & ->). clear E.
  pose proof D as D0.
  apply decode_ascii_cons in D as (t1 & -> & D); [|vm_compute; reflexivity].
  apply decode_ascii_cons in D as (t2 & -> & D); [|exact L1].
  apply decode_ascii_cons in D as (t3 & -> & D); [|exact L2].
  apply decode_head in D as (c & t' & -> & Hc).
  rewrite D0, bind_return.
  cbn [index nth_error]. rewrite bind_ret_l.
  cbn [nth_error].
  split.
  - intros H. injection H as ->. now rewrite (proj2 Hc eq_refl).
  - intros H. destruct (N.eqb_spec c 69) as [Ec|Ec]; [|reflexivity].
    exfalso. apply H. now rewrite (proj1 Hc Ec).
Qed.

Lemma erase_response_type_byte_witness :
  let ack := b ">01E;00A6" ++ CRLF in
  let other := b ">01X;00B9" ++ CRLF in
  1 <= 1 <= 254
  /\ (validate_packet {| address := 1 |} (strip ack) = ([], Return true)
      /\ decode (strip ack) = ([], Return (u ">01E;00A6"))
      /\ nth_error (strip ack) 3 = Some "E"%byte
      /\ erase_response {| address := 1 |} (Some ack) = ([], Return (Some true)))
  /\ (validate_packet {| address := 1 |} (strip other) = ([], Return true)
      /\ decode (strip other) = ([], Return (u ">01X;00B9"))
      /\ nth_error (strip other) 3 <> Some "E"%byte
      /\ erase_response {| address := 1 |} (Some other)
         = ([LogUnknownErase], Return (Some false))).
Proof.
  intros ack other.
  assert (Ha : 1 <= 1 <= 254) by lia.
  assert (V : validate_packet {| address := 1 |} (strip ack) = ([], Return true))
    by (vm_compute; reflexivity).
  assert (D : decode (strip ack) = ([], Return (u ">01E;00A6")))
    by (vm_compute; reflexivity).
  assert (T : nth_error (strip ack) 3 = Some "E"%byte) by reflexivity.
  assert (V' : validate_packet {| address := 1 |} (strip other) = ([], Return true))
    by (vm_compute; reflexivity).
  assert (D' : decode (strip other) = ([], Return (u ">01X;00B9")))
    by (vm_compute; reflexivity).
  assert (T' : nth_error (strip other) 3 <> Some "E"%byte)
    by (vm_compute; discriminate).
  split; [exact Ha | split].
  - split; [exact V | split; [exact D | split; [exact T|]]].
    exact (proj1 (erase_response_type_byte 1 ack _ Ha V D) T).
  - split; [exact V' | split; [exact D' | split; [exact T'|]]].
    exact (proj2 (erase_response_type_byte 1 other _ Ha V' D') T').
Defined.

Lemma status_response_validated (self : PM10AHDS) (resp : bytes) (body : text) :
  validate_packet self (strip resp) = ([], Return true) ->
  decode (frame_body (strip resp)) = ([], Return body) ->
  nth_error body 3 = Some 83%N ->
  resp <> []
  /\ status_response self (Some resp)
     = (let _fields := str_split 44%N body in
        if negb (length _fields =? 11)%nat then
          logging_error LogNotEnoughFields ;;; ret None
        else
          f3 <- index _fields 3 ;;
          runtime <- py_int f3 ;;
          f4 <- index _fields 4 ;;
          i4 <- py_int f4 ;;
          energy <- int_mul_float i4 2.7777777777778E-10 ;;
          f5 <- index _fields 5 ;;
          i5 <- py_int f5 ;;
          power <- int_div_float i5 1e3 ;;
          f6 <- index _fields 6 ;;
          i6 <- py_int f6 ;;
          voltage <- int_div_float i6 1e6 ;;
          f7 <- index _fields 7 ;;
          i7 <- py_int f7 ;;
          current <- int_div_float i7 1e6 ;;
          f8 <- index _fields 8 ;;
          let leadlag := if text_eqb f8 (u "1") then u "lag" else u "lead" in
          f9 <- index _fields 9 ;;
          i9 <- py_int f9 ;;
          pf <- int_div_float i9 1e6 ;;
          f10 <- index _fields 10 ;;
          i10 <- py_int f10 ;;
          apparent <- int_div_float i10 1e3 ;;
          ret (Some {| runtime_seconds := runtime;
                       energy_kwh := energy;
                       power_w := power;
                       voltage_v := voltage;
                       current_a := current;
                       powerfactor_leadlag := leadlag;
                       powerfactor := pf;
                       apparent_power_va := apparent |})).
Proof.
  intros V D T.
  destruct resp as [|x0 r0]; [discriminate V|].
  split; [discriminate|].
  unfold status_response, frame_body, bytes_split in *.
  remember (strip (x0 :: r0)) as frame eqn:Ef. clear Ef.
  rewrite V, bind_return. cbv beta iota. unfold bytes, text in *.
  rewrite index_split_0, bind_return, D, bind_return.
  rewrite (index_nth _ _ _ T), bind_return.
  reflexivity.
Qed.

(** X20: on a validated status response whose body decodes as text, with
    type character [S], and splits on [,] into a number of fields other
    than 11, [request_status] logs the field-count error and returns
    [None], no reading. *)
Theorem status_response_field_count (self : PM10AHDS) (resp : bytes) (body : text) :
  validate_packet self (strip resp) = ([], Return true) ->
  decode (frame_body (strip resp)) = ([], Return body) ->
  nth_error body 3 = Some 83%N ->
  length (str_split 44%N body) <> 11%nat ->
  status_response self (Some resp) = ([LogNotEnoughFields], Return None).
Proof.
  intros V D T L.
  destruct (status_response_validated self resp body V D T) as [_ ->].
  cbv zeta. destruct (Nat.eqb_spec (length (str_split 44%N body)) 11) as [E|_];
    [contradiction | reflexivity].
Qed.

Lemma status_response_field_count_witness :
  let self := {| address := 1 |} in
  let ten := b ">01S,0,0,1,2,3,4,5,1,6;0406" ++ CRLF in
  let twelve := b ">01S,0,0,1,2,3,4,5,1,6,7,8;04CD" ++ CRLF in
  (validate_packet self (strip ten) = ([], Return true)
   /\ decode (frame_body (strip ten)) = ([], Return (u ">01S,0,0,1,2,3,4,5,1,6"))
   /\ nth_error (u ">01S,0,0,1,2,3,4,5,1,6") 3 = Some 83%N
   /\ length (str_split 44%N (u ">01S,0,0,1,2,3,4,5,1,6")) = 10%nat
   /\ status_response self (Some ten) = ([LogNotEnoughFields], Return None))
  /\ (length (str_split 44%N (u ">01S,0,0,1,2,3,4,5,1,6,7,8")) = 12%nat
      /\ status_response self (Some twelve) = ([LogNotEnoughFields], Return None)).
Proof.
  intros self ten twelve.
  assert (V : validate_packet self (strip ten) = ([], Return true))
    by (vm_compute; reflexivity).
  assert (D : decode (frame_body (strip ten))
              = ([], Return (u ">01S,0,0,1,2,3,4,5,1,6")))
    by (vm_compute; reflexivity).
  assert (T : nth_error (u ">01S,0,0,1,2,3,4,5,1,6") 3 = Some 83%N) by reflexivity.
  assert (L : length (str_split 44%N (u ">01S,0,0,1,2,3,4,5,1,6")) = 10%nat)
    by (vm_compute; reflexivity).
  split.
  - split; [exact V | split; [exact D | split; [exact T | split; [exact L|]]]].
    apply (status_response_field_count self ten _ V D T).
    rewrite L. discriminate.
  - split; [vm_compute; reflexivity|].
    apply (status_response_field_count self twelve
             (u ">01S,0,0,1,2,3,4,5,1,6,7,8")).
    + vm_compute; reflexivity.
    + vm_compute; reflexivity.
    + reflexivity.
    + vm_compute. discriminate.
Defined.

(** C9: the code departs from it.  On a response the validator accepts
    whose body is not valid UTF-8, [request_status] is left by
    [UnicodeDecodeError], raised by [decode()] before the fields are
    counted: no field-count error is logged and no failure result is
    returned, whatever the number of [,]-separated pieces of the body. *)
Theorem status_response_decode_raises (self : PM10AHDS) (resp : bytes) :
  validate_packet self (strip resp) = ([], Return true) ->
  decode (frame_body (strip resp)) = ([], Raise UnicodeDecodeError) ->
  status_response self (Some resp) = ([], Raise UnicodeDecodeError).
Proof.
  intros V D.
  destruct resp as [|x0 r0]; [discriminate V|].
  unfold status_response, frame_body, bytes_split in *.
  remember (strip (x0 :: r0)) as frame eqn:Ef. clear Ef.
  rewrite V, bind_return. cbv beta iota. unfold bytes, text in *.
  rewrite index_split_0, bind_return, D.
  reflexivity.
Qed.

Lemma status_response_decode_raises_witness :
  let self := {| address := 1 |} in
  let twelve := b ">01S,0,0,1,2,3,4,5,1,6,7," ++ [xff] ++ b ";0594" ++ CRLF in
  let ten := b ">01S,0,0,1,2,3,4,5,1," ++ [xff] ++ b ";04CF" ++ CRLF in
  (validate_packet self (strip twelve) = ([], Return true)
   /\ decode (frame_body (strip twelve)) = ([], Raise UnicodeDecodeError)
   /\ nth_error (frame_body (strip twelve)) 3 = Some "S"%byte
   /\ length (bytes_split "," (frame_body (strip twelve))) = 12%nat
   /\ status_response self (Some twelve) = ([], Raise UnicodeDecodeError))
  /\ (length (bytes_split "," (frame_body (strip ten))) = 10%nat
      /\ status_response self (Some ten) = ([], Raise UnicodeDecodeError)).
Proof.
  intros self twelve ten.
  assert (V : validate_packet self (strip twelve) = ([], Return true))
    by (vm_compute; reflexivity).
  assert (D : decode (frame_body (strip twelve)) = ([], Raise UnicodeDecodeError))
    by (vm_compute; reflexivity).
  split.
  - split; [exact V | split; [exact D | split; [reflexivity|]]].
    split; [vm_compute; reflexivity|].
    exact (status_response_decode_raises self twelve V D).
  - split; [vm_compute; reflexivity|].
    apply (status_response_decode_raises self ten); vm_compute; reflexivity.
Defined.

Lemma py_int_result (s : text) :
  (exists z, py_int s = ([], Return z)) \/ py_int s = ([], Raise ValueError).
Proof.
  unfold py_int, ret, raise.
  repeat match goal with
         | |- context [match ?x with _ => _ end] => destruct x
         end; eauto.
Qed.

Lemma float_of_int_result (i : Z) :
  (exists f, float_of_int i = ([], Return f))
  \/ float_of_int i = ([], Raise OverflowError).
Proof. unfold float_of_int, ret, raise. destruct (is_infinity _); eauto. Qed.

Lemma int_mul_float_result (i : Z) (x : float) :
  (exists f, int_mul_float i x = ([], Return f))
  \/ int_mul_float i x = ([], Raise OverflowError).
Proof.
  unfold int_mul_float.
  destruct (float_of_int_result i) as [[f ->] | ->]; [left | right; reflexivity].
  rewrite bind_return. now eexists.
Qed.

Lemma int_div_float_result (i : Z) (x : float) :
  (exists f, int_div_float i x = ([], Return f))
  \/ int_div_float i x = ([], Raise OverflowError).
Proof.
  unfold int_div_float.
  destruct (float_of_int_result i) as [[f ->] | ->]; [left | right; reflexivity].
  rewrite bind_return. now eexists.
Qed.

(** One step of the field conversions of [request_status]: the goal is
    that the chain ends in [ValueError] or in [OverflowError]. *)
Ltac field_step P :=
  first
    [ left; reflexivity
    | right; reflexivity
    | rewrite bind_return
    | rewrite bind_ret_l
    | rewrite P
    | match goal with
      | |- context [bind (py_int ?f) _] =>
          destruct (py_int_result f) as [[? ->] | ->]
      | |- context [bind (int_mul_float ?i ?x) _] =>
          destruct (int_mul_float_result i x) as [[? ->] | ->]
      | |- context [bind (int_div_float ?i ?x) _] =>
          destruct (int_div_float_result i x) as [[? ->] | ->]
      end ].

(** C8: the code departs from it.  On a validated status response with
    type byte [S] and 11 fields, when a field at index 3, 4, 5, 6, 7, 9 or
    10 is not an integer literal, [request_status] returns nothing: it is
    left by an exception, the [ValueError] of the conversion or the
    [OverflowError] of an earlier field too large for a float. *)
Theorem status_response_field_error
    (self : PM10AHDS) (resp : bytes) (body : text) (i : nat) (f : text) :
  validate_packet self (strip resp) = ([], Return true) ->
  decode (frame_body (strip resp)) = ([], Return body) ->
  nth_error body 3 = Some 83%N ->
  length (str_split 44%N body) = 11%nat ->
  In i [3; 4; 5; 6; 7; 9; 10]%nat ->
  nth_error (str_split 44%N body) i = Some f ->
  py_int f = ([], Raise ValueError) ->
  status_response self (Some resp) = ([], Raise ValueError)
  \/ status_response self (Some resp) = ([], Raise OverflowError).
Proof.
  intros V D T L I F P.
  destruct (status_response_validated self resp body V D T) as [_ ->].
  cbv zeta. rewrite L. cbn [Nat.eqb negb].
  destruct (str_split 44%N body)
    as [|f0 [|f1 [|f2 [|f3 [|f4 [|f5 [|f6 [|f7 [|f8 [|f9 [|f10 [|? ?]]]]]]]]]]]];
    try discriminate L.
  cbn [index nth_error].
  assert (C : In f [f3; f4; f5; f6; f7; f9; f10]).
  { cbn [In] in I.
    repeat (destruct I as [<- | I];
            [cbn [nth_error] in F; injection F as <-; cbn [In]; tauto|]).
    destruct I. }
  cbn [In] in C.
  repeat (destruct C as [E | C]; [subst f; repeat (field_step P)|]).
  destruct C.
Qed.

Lemma status_response_field_error_witness :
  let self := {| address := 1 |} in
  let resp := b ">01S,0,0,x,0,0,0,0,1,0,0;0495" ++ CRLF in
  let body := u ">01S,0,0,x,0,0,0,0,1,0,0" in
  validate_packet self (strip resp) = ([], Return true)
  /\ decode (frame_body (strip resp)) = ([], Return body)
  /\ nth_error body 3 = Some 83%N
  /\ length (str_split 44%N body) = 11%nat
  /\ In 3%nat [3; 4; 5; 6; 7; 9; 10]%nat
  /\ nth_error (str_split 44%N body) 3 = Some (u "x")
  /\ py_int (u "x") = ([], Raise ValueError)
  /\ (status_response self (Some resp) = ([], Raise ValueError)
      \/ status_response self (Some resp) = ([], Raise OverflowError)).
Proof.
  intros self resp body.
  assert (V : validate_packet self (strip resp) = ([], Return true))
    by (vm_compute; reflexivity).
  assert (D : decode (frame_body (strip resp)) = ([], Return body))
    by (vm_compute; reflexivity).
  assert (T : nth_error body 3 = Some 83%N) by reflexivity.
  assert (L : length (str_split 44%N body) = 11%nat) by (vm_compute; reflexivity).
  assert (I : In 3%nat [3; 4; 5; 6; 7; 9; 10]%nat) by (simpl; tauto).
  assert (F : nth_error (str_split 44%N body) 3 = Some (u "x"))
    by (vm_compute; reflexivity).
  assert (P : py_int (u "x") = ([], Raise ValueError)) by (vm_compute; reflexivity).
  repeat (split; [assumption|]).
  exact (status_response_field_error self resp body 3 (u "x") V D T L I F P).
Defined.

(** The failing input of C8 evaluated: the conversion error leaves
    [request_status], and an oversized field 4 raises before a bad field
    5 is looked at. *)
Lemma bad_field_example :
  status_response {| address := 1 |}
    (Some (b ">01S,0,0,x,0,0,0,0,1,0,0;0495" ++ CRLF))
  = ([], Raise ValueError)
  /\ snd (request_status {| address := 1 |}
            {| written := [];
               incoming := [b ">01S,0,0,12627447,89716830841,3200,244535000,32400,1,4o4360,7927;0CB3"
                              ++ CRLF] |})
     = ([], Raise ValueError).
Proof. split; vm_compute; reflexivity. Qed.

(** Apart from the empty packet, validation always returns: a frame that
    is not accepted is answered with [False] and one error record. *)
Lemma validate_packet_nonempty_returns (a : Z) (packet : bytes) :
  1 <= a <= 254 -> packet <> [] ->
  validate_packet {| address := a |} packet = ([], Return true)
  \/ exists ev, validate_packet {| address := a |} packet = ([ev], Return false).
Proof.
  intros Ha N. destruct packet as [|som p]; [contradiction|]. clear N.
  destruct (Byte.byte_eq_dec som ">"%byte) as [->|N].
  2:{ right. exists LogNoSOM. now apply validate_packet_bad_som. }
  unfold validate_packet. cbn [address index nth_error].
  rewrite bind_ret_l. change (byte_val ">" =? 62) with true. cbn [negb].
  rewrite encode_address, bind_ret_l by exact Ha.
  destruct (bytes_eqb (slice (">"%byte :: p) 1 3) (hex_field 2 a)).
  2:{ right. eexists. reflexivity. }
  cbn [negb]. unfold bytes_split.
  destruct (split_decompose Byte.eqb ";"%byte byte_eqb_eq (">"%byte :: p))
    as [Nsep | (body & v & -> & Nb)].
  { rewrite (split_nosep _ _ byte_eqb_eq) by exact Nsep.
    right. exists LogNoChecksum. reflexivity. }
  rewrite (split_app_sep _ _ byte_eqb_eq) by exact Nb.
  destruct (split Byte.eqb ";"%byte v) as [|cs pieces] eqn:Ev;
    [now apply split_nonempty in Ev|].
  cbn [index nth_error]. rewrite !bind_ret_l, try_except_ret, bind_ret_l.
  rewrite encode_checksum, bind_ret_l.
  destruct (bytes_eqb cs (checksum_field (slice_from body 1)));
    [left; reflexivity | right; eexists; reflexivity].
Qed.

(** * Further properties of the driver *)

(** ** What the validator accepts and what it rejects *)

Lemma upper_hex_digit_inj (d e : Z) :
  0 <= d < 16 -> 0 <= e < 16 -> upper_hex_digit d = upper_hex_digit e -> d = e.
Proof.
  intros Hd He E.
  set (L := [0; 1; 2; 3; 4; 5; 6; 7; 8; 9; 10; 11; 12; 13; 14; 15]).
  assert (Id : In d L) by (subst L; simpl; lia).
  assert (Ie : In e L) by (subst L; simpl; lia).
  assert (T : forallb (fun d => forallb (digits_differ d) L) L = true) by reflexivity.
  rewrite forallb_forall in T. specialize (T d Id).
  rewrite forallb_forall in T. specialize (T e Ie).
  unfold digits_differ in T. rewrite E in T.
  rewrite (proj2 (byte_eqb_eq _ _) eq_refl) in T. cbn [implb] in T.
  now apply Z.eqb_eq.
Qed.

Lemma hex_field_inj (w : nat) :
  forall n m, 0 <= n < 16 ^ Z.of_nat w -> 0 <= m < 16 ^ Z.of_nat w ->
              hex_field w n = hex_field w m -> n = m.
Proof.
  induction w as [|w IH]; intros n m Hn Hm E.
  - simpl in Hn, Hm. lia.
  - rewrite Nat2Z.inj_succ, Z.pow_succ_r in Hn, Hm by lia.
    cbn [hex_field] in E. apply app_inj_tail in E as [E1 E2].
    apply IH in E1.
    + apply upper_hex_digit_inj in E2; try (apply Z.mod_pos_bound; lia).
      rewrite (Z.div_mod n 16), (Z.div_mod m 16) by lia. now rewrite E1, E2.
    + split; [apply Z.div_pos; lia | apply Z.div_lt_upper_bound; lia].
    + split; [apply Z.div_pos; lia | apply Z.div_lt_upper_bound; lia].
Qed.

Lemma byte_total_app (s t : bytes) :
  byte_total (s ++ t) = byte_total s + byte_total t.
Proof. induction s as [|x r IH]; simpl; [reflexivity | rewrite IH; lia]. Qed.

Lemma byte_total_perm (s t : bytes) :
  Permutation s t -> byte_total s = byte_total t.
Proof. induction 1; simpl; lia. Qed.

Lemma byte_val_range (x : byte) : 0 <= byte_val x <= 255.
Proof. unfold byte_val. pose proof (Byte.to_N_bounded x). lia. Qed.

(** Validation of a frame with start marker, matching address field and a
    separator after a payload without separator: all that is left is the
    comparison of the checksum field. *)
Lemma validate_packet_framed (a : Z) (payload cs rest : bytes) :
  1 <= a <= 254 -> ~ In ";"%byte payload -> ~ In ";"%byte cs ->
  rest = [] \/ (exists v, rest = ";"%byte :: v) ->
  validate_packet {| address := a |}
    (b ">" ++ (hex_field 2 a ++ payload) ++ b ";" ++ cs ++ rest)
  = if bytes_eqb cs (checksum_field (hex_field 2 a ++ payload)) then ret true
    else ([LogChecksumMismatch (checksum_field (hex_field 2 a ++ payload)) cs],
          Return false).
Proof.
  intros Ha Np Nc Hrest.
  unfold validate_packet. cbn [address].
  change (b ">") with [">"%byte]. change (b ";") with [";"%byte].
  cbn [app index nth_error]. rewrite bind_ret_l.
  change (byte_val ">" =? 62) with true. cbn [negb].
  rewrite encode_address, bind_ret_l by exact Ha.
  assert (S13 : forall t, slice (">"%byte :: (hex_field 2 a ++ payload) ++ t) 1 3
                          = hex_field 2 a).
  { intros t. unfold slice. cbn [Nat.sub skipn hex_field app firstn]. reflexivity. }
  rewrite S13, bytes_eqb_refl. cbn [negb].
  assert (Nb : ~ In ";"%byte (">"%byte :: hex_field 2 a ++ payload)).
  { intros [I|I]; [discriminate|]. apply in_app_or in I as [I|I];
      [now apply hex_field_nosep in I | now apply Np]. }
  unfold bytes_split.
  change (">"%byte :: (hex_field 2 a ++ payload) ++ ";"%byte :: ?t)
    with ((">"%byte :: hex_field 2 a ++ payload) ++ ";"%byte :: t).
  rewrite (split_app_sep _ _ byte_eqb_eq) by exact Nb.
  destruct (split_head Byte.eqb ";"%byte byte_eqb_eq cs rest Nc Hrest)
    as (pieces & ->).
  cbn [index nth_error]. rewrite !bind_ret_l, try_except_ret, bind_ret_l.
  cbn [slice_from skipn]. rewrite encode_checksum, bind_ret_l.
  destruct (bytes_eqb cs (checksum_field (hex_field 2 a ++ payload)));
    reflexivity.
Qed.

(** X1: for an address in [1,254], [validate_packet] returns [True]
    exactly on the frames made of [>], the address field, a payload
    without [;], [;], the 4-digit checksum of address field and payload,
    and then nothing or a [;] followed by anything. *)
Theorem validate_packet_accepts_iff (a : Z) (packet : bytes) :
  1 <= a <= 254 ->
  validate_packet {| address := a |} packet = ([], Return true)
  <-> well_formed a packet.
Proof.
  intros Ha. split.
  - intros V. now apply validate_packet_true_inv in V.
  - intros W. now apply validate_packet_accepts.
Qed.

Lemma validate_packet_accepts_iff_witness :
  1 <= 1 <= 254
  /\ (validate_packet {| address := 1 |} (b ">01S;00B4") = ([], Return true)
      <-> well_formed 1 (b ">01S;00B4")).
Proof. split; [lia | apply (validate_packet_accepts_iff 1 (b ">01S;00B4")); lia]. Defined.

(** X2: a frame that is valid for one address is rejected by the driver
    of any other address, with the address-mismatch record. *)
Theorem validate_packet_other_address (a a' : Z) (packet : bytes) :
  1 <= a <= 254 -> 1 <= a' <= 254 -> a <> a' ->
  well_formed a' packet ->
  validate_packet {| address := a |} packet
  = ([LogAddressMismatch (hex_field 2 a') a], Return false).
Proof.
  intros Ha Ha' N (payload & rest & -> & _ & _).
  unfold validate_packet. cbn [address].
  change (b ">") with [">"%byte].
  cbn [app index nth_error]. rewrite bind_ret_l.
  change (byte_val ">" =? 62) with true. cbn [negb].
  rewrite encode_address, bind_ret_l by exact Ha.
  assert (S13 : forall t, slice (">"%byte :: (hex_field 2 a' ++ payload) ++ t) 1 3
                          = hex_field 2 a').
  { intros t. unfold slice. cbn [Nat.sub skipn hex_field app firstn]. reflexivity. }
  rewrite S13.
  destruct (bytes_eqb (hex_field 2 a') (hex_field 2 a)) eqn:E; [|reflexivity].
  apply bytes_eqb_eq, hex_field_inj in E; [congruence | simpl; lia | simpl; lia].
Qed.

Lemma validate_packet_other_address_witness :
  1 <= 1 <= 254 /\ 1 <= 2 <= 254 /\ 1 <> 2
  /\ well_formed 2 (b ">02E;00A7")
  /\ validate_packet {| address := 1 |} (b ">02E;00A7")
     = ([LogAddressMismatch (hex_field 2 2) 1], Return false).
Proof.
  assert (H1 : 1 <= 1 <= 254) by lia.
  assert (H2 : 1 <= 2 <= 254) by lia.
  assert (N : 1 <> 2) by lia.
  assert (W : well_formed 2 (b ">02E;00A7")).
  { exists (b "E"), []. split; [reflexivity | split; [|now left]].
    simpl. intros [H|[]]. discriminate H. }
  split; [exact H1 | split; [exact H2 | split; [exact N | split; [exact W|]]]].
  exact (validate_packet_other_address 1 2 _ H1 H2 N W).
Defined.

Lemma checksum_field_inj (s t : bytes) :
  checksum_field s = checksum_field t ->
  byte_total s mod 65536 = byte_total t mod 65536.
Proof.
  unfold checksum_field. intros E.
  apply hex_field_inj in E; [exact E | |];
    change (16 ^ Z.of_nat 4) with 65536; apply Z.mod_pos_bound; lia.
Qed.

(** X3: the checksum catches any change of a single payload byte: a frame
    whose checksum was computed with byte [x] where the frame now holds
    [y <> x] is rejected with the checksum-mismatch record. *)
Theorem validate_packet_detects_change (a : Z) (p1 p2 rest : bytes) (x y : byte) :
  1 <= a <= 254 -> x <> y -> ~ In ";"%byte (p1 ++ y :: p2) ->
  rest = [] \/ (exists v, rest = ";"%byte :: v) ->
  validate_packet {| address := a |}
    (b ">" ++ (hex_field 2 a ++ p1 ++ y :: p2) ++ b ";"
       ++ checksum_field (hex_field 2 a ++ p1 ++ x :: p2) ++ rest)
  = ([LogChecksumMismatch (checksum_field (hex_field 2 a ++ p1 ++ y :: p2))
                          (checksum_field (hex_field 2 a ++ p1 ++ x :: p2))],
     Return false).
Proof.
  intros Ha N Np Hrest.
  rewrite validate_packet_framed;
    [|exact Ha | exact Np | apply hex_field_nosep | exact Hrest].
  destruct (bytes_eqb _ _) eqn:E; [|reflexivity].
  exfalso. apply bytes_eqb_eq, checksum_field_inj in E.
  rewrite !byte_total_app in E. cbn [byte_total] in E.
  pose proof (byte_val_range x) as Rx. pose proof (byte_val_range y) as Ry.
  assert (D : byte_val x <> byte_val y) by (intros H; now apply N, byte_val_inj).
  match type of E with
  | ?A mod _ = ?B mod _ =>
      assert (M : (A - B) mod 65536 = 0)
        by (rewrite Zminus_mod, E, Z.sub_diag; reflexivity)
  end.
  apply Z.mod_divide in M; [|lia]. destruct M as [k M]. lia.
Qed.

Lemma validate_packet_detects_change_witness :
  1 <= 1 <= 254 /\ "S"%byte <> "T"%byte /\ ~ In ";"%byte ([] ++ "T"%byte :: b ",1")
  /\ validate_packet {| address := 1 |}
       (b ">" ++ (hex_field 2 1 ++ [] ++ "T"%byte :: b ",1") ++ b ";"
          ++ checksum_field (hex_field 2 1 ++ [] ++ "S"%byte :: b ",1") ++ [])
     = ([LogChecksumMismatch (checksum_field (hex_field 2 1 ++ [] ++ "T"%byte :: b ",1"))
                             (checksum_field (hex_field 2 1 ++ [] ++ "S"%byte :: b ",1"))],
        Return false).
Proof.
  assert (Ha : 1 <= 1 <= 254) by lia.
  assert (N : "S"%byte <> "T"%byte) by discriminate.
  assert (Np : ~ In ";"%byte ([] ++ "T"%byte :: b ",1")).
  { simpl. intros [H|[H|[H|[]]]]; discriminate H. }
  split; [exact Ha | split; [exact N | split; [exact Np|]]].
  exact (validate_packet_detects_change 1 [] (b ",1") [] _ _ Ha N Np (or_introl eq_refl)).
Defined.

(** X4: the checksum does not see the order of the bytes: a valid frame
    stays valid when its payload bytes are rearranged. *)
Theorem validate_packet_permutation (a : Z) (payload payload' rest : bytes) :
  1 <= a <= 254 -> Permutation payload payload' -> ~ In ";"%byte payload ->
  rest = [] \/ (exists v, rest = ";"%byte :: v) ->
  validate_packet {| address := a |}
    (b ">" ++ (hex_field 2 a ++ payload') ++ b ";"
       ++ checksum_field (hex_field 2 a ++ payload) ++ rest)
  = ([], Return true).
Proof.
  intros Ha P Np Hrest.
  apply validate_packet_accepts; [exact Ha|].
  exists payload', rest. split; [|split; [|exact Hrest]].
  - do 3 f_equal. unfold checksum_field. f_equal. f_equal.
    rewrite !byte_total_app. now rewrite (byte_total_perm _ _ P).
  - intros I. apply Np. apply Permutation_sym in P.
    now apply (Permutation_in _ P).
Qed.

Lemma validate_packet_permutation_witness :
  1 <= 1 <= 254 /\ Permutation (b "S,12") (b "S,21") /\ ~ In ";"%byte (b "S,12")
  /\ validate_packet {| address := 1 |}
       (b ">" ++ (hex_field 2 1 ++ b "S,21") ++ b ";"
          ++ checksum_field (hex_field 2 1 ++ b "S,12") ++ [])
     = ([], Return true).
Proof.
  assert (Ha : 1 <= 1 <= 254) by lia.
  assert (P : Permutation (b "S,12") (b "S,21")).
  { change (b "S,12") with (b "S," ++ ["1"%byte; "2"%byte]).
    change (b "S,21") with (b "S," ++ ["2"%byte; "1"%byte]).
    apply Permutation_app_head, perm_swap. }
  assert (Np : ~ In ";"%byte (b "S,12")).
  { simpl. intros [H|[H|[H|[H|[]]]]]; discriminate H. }
  split; [exact Ha | split; [exact P | split; [exact Np|]]].
  exact (validate_packet_permutation 1 _ _ [] Ha P Np (or_introl eq_refl)).
Defined.

(** X5: on a non-empty packet [validate_packet] never raises; it either
    returns [True] and logs nothing, or returns [False] and logs exactly
    one error record. *)
Theorem validate_packet_one_record (a : Z) (packet : bytes) :
  1 <= a <= 254 -> packet <> [] ->
  validate_packet {| address := a |} packet = ([], Return true)
  \/ exists ev, validate_packet {| address := a |} packet = ([ev], Return false).
Proof. apply validate_packet_nonempty_returns. Qed.

Lemma validate_packet_one_record_witness :
  1 <= 1 <= 254 /\ b "garbage" <> []
  /\ (validate_packet {| address := 1 |} (b "garbage") = ([], Return true)
      \/ exists ev, validate_packet {| address := 1 |} (b "garbage")
                    = ([ev], Return false)).
Proof.
  assert (Ha : 1 <= 1 <= 254) by lia.
  assert (N : b "garbage" <> []) by discriminate.
  split; [exact Ha | split; [exact N|]].
  exact (validate_packet_one_record 1 _ Ha N).
Defined.

(** X6: the driver never takes its own request for a response: the packet
    [construct_packet] builds is rejected by every driver for the start
    marker, whatever the address and the command. *)
Theorem validate_packet_rejects_request (a : Z) (c : bytes) :
  1 <= a <= 254 ->
  exists packet,
    construct_packet {| address := a |} (Bytes c) = ([], Return packet)
    /\ forall self, validate_packet self packet = ([LogNoSOM], Return false).
Proof.
  intros Ha. rewrite construct_packet_bytes by exact Ha.
  eexists. split; [reflexivity|].
  intros self. change (b "<") with ["<"%byte]. cbn [app].
  apply validate_packet_bad_som. discriminate.
Qed.

Lemma validate_packet_rejects_request_witness :
  1 <= 1 <= 254
  /\ exists packet,
       construct_packet {| address := 1 |} (Bytes (b "S,")) = ([], Return packet)
       /\ forall self, validate_packet self packet = ([LogNoSOM], Return false).
Proof. split; [lia | apply (validate_packet_rejects_request 1 (b "S,")); lia]. Defined.

(** ** The request methods and the serial port *)

Lemma request_unfold {A} (a : Z) (cmd : bytes)
    (handle : PM10AHDS -> option bytes -> M A) (s : Serial) :
  1 <= a <= 254 ->
  request {| address := a |} cmd handle s
  = ({| written := written s
                     ++ [b "<" ++ (hex_field 2 a ++ cmd) ++ b ";"
                           ++ checksum_field (hex_field 2 a ++ cmd) ++ CRLF];
        incoming := tl (incoming s) |},
     handle {| address := a |} (Some (hd [] (incoming s)))).
Proof.
  intros Ha. unfold request. rewrite construct_packet_bytes by exact Ha.
  unfold ret, readline, write, flush. cbn [written incoming].
  destruct (incoming s) as [|line rest]; cbn [hd tl]; now rewrite bind_return.
Qed.

(** X7: for an address in [1,254], [request_status] and [request_erase]
    write exactly one packet, the framed command [S,] or [E,], take
    exactly one line from the port, and their result is what the response
    handling makes of that line (of [b''] when there is none). *)
Theorem request_transport (a : Z) (s : Serial) :
  1 <= a <= 254 ->
  request_status {| address := a |} s
  = ({| written := written s
                     ++ [b "<" ++ (hex_field 2 a ++ b "S,") ++ b ";"
                           ++ checksum_field (hex_field 2 a ++ b "S,") ++ CRLF];
        incoming := tl (incoming s) |},
     status_response {| address := a |} (Some (hd [] (incoming s))))
  /\ request_erase {| address := a |} s
     = ({| written := written s
                        ++ [b "<" ++ (hex_field 2 a ++ b "E,") ++ b ";"
                              ++ checksum_field (hex_field 2 a ++ b "E,") ++ CRLF];
           incoming := tl (incoming s) |},
        erase_response {| address := a |} (Some (hd [] (incoming s)))).
Proof.
  intros Ha. unfold request_status, request_erase.
  split; now apply request_unfold.
Qed.

Lemma request_transport_witness :
  let s := {| written := []; incoming := [b ">01E;00A6" ++ CRLF; b "later"] |} in
  1 <= 1 <= 254
  /\ request_erase {| address := 1 |} s
     = ({| written := [b "<01E,;00D2" ++ CRLF]; incoming := [b "later"] |},
        ([], Return (Some true))).
Proof.
  intros s. split; [lia|].
  rewrite (proj2 (request_transport 1 s ltac:(lia))).
  vm_compute. reflexivity.
Defined.

(** X8: when the port has nothing to read, both request methods still
    write their packet, the framed command [S,] or [E,], after what the
    port already holds, log the missing response and return [None]; the
    validator is not consulted. *)
Theorem request_no_response (a : Z) (s : Serial) :
  1 <= a <= 254 -> incoming s = [] ->
  request_status {| address := a |} s
  = ({| written := written s
                     ++ [b "<" ++ (hex_field 2 a ++ b "S,") ++ b ";"
                           ++ checksum_field (hex_field 2 a ++ b "S,") ++ CRLF];
        incoming := [] |},
     ([LogNoResponse], Return None))
  /\ request_erase {| address := a |} s
     = ({| written := written s
                        ++ [b "<" ++ (hex_field 2 a ++ b "E,") ++ b ";"
                              ++ checksum_field (hex_field 2 a ++ b "E,") ++ CRLF];
           incoming := [] |},
        ([LogNoResponse], Return None)).
Proof.
  intros Ha E. unfold request_status, request_erase.
  rewrite !request_unfold by exact Ha. rewrite E. cbn [hd tl].
  split; reflexivity.
Qed.

Lemma request_no_response_witness :
  let s := {| written := [b "old"]; incoming := [] |} in
  1 <= 200 <= 254 /\ incoming s = []
  /\ request_status {| address := 200 |} s
     = ({| written := [b "old"; b "<C8S,;00FA" ++ CRLF]; incoming := [] |},
        ([LogNoResponse], Return None))
  /\ request_erase {| address := 200 |} s
     = ({| written := [b "old"; b "<C8E,;00EC" ++ CRLF]; incoming := [] |},
        ([LogNoResponse], Return None)).
Proof.
  intros s. split; [lia | split; [reflexivity|]].
  destruct (request_no_response 200 s ltac:(lia) eq_refl) as [Hs He].
  split; [rewrite Hs | rewrite He]; vm_compute; reflexivity.
Defined.

(** ** The constructor *)

(** X9: [__init__] raises [ValueError] for an address outside [1,254] and
    nothing is constructed; a driver it does construct frames every bytes
    command without error. *)
Theorem init_then_construct (a : Z) :
  (~ 1 <= a <= 254 /\ init a = ([], Raise ValueError))
  \/ (1 <= a <= 254
      /\ exists self,
           init a = ([], Return self) /\ address self = a
           /\ forall c, exists packet,
                construct_packet self (Bytes c) = ([], Return packet)).
Proof.
  unfold init.
  destruct (Z.ltb_spec a 1) as [L|L]; [left; split; [lia | reflexivity]|].
  destruct (Z.gtb_spec a 254) as [G|G]; [left; split; [lia | reflexivity]|].
  right. split; [lia|]. eexists. split; [reflexivity | split; [reflexivity|]].
  intros c. rewrite construct_packet_bytes by lia. eexists. reflexivity.
Qed.

(** ** Line endings and padding *)

Lemma lstrip_spaces_app (ws s : bytes) :
  Forall (fun x => is_bytes_space x = true) ws -> lstrip (ws ++ s) = lstrip s.
Proof. induction 1 as [|x r Hx _ IH]; [reflexivity|]. cbn [app lstrip]. now rewrite Hx. Qed.

Lemma lstrip_app (s t : bytes) :
  lstrip (s ++ t) = match lstrip s with [] => lstrip t | _ :: _ => lstrip s ++ t end.
Proof.
  induction s as [|x r IH]; [reflexivity|].
  cbn [app lstrip]. destruct (is_bytes_space x); [exact IH | reflexivity].
Qed.

Lemma strip_padding (ws1 ws2 s : bytes) :
  Forall (fun x => is_bytes_space x = true) ws1 ->
  Forall (fun x => is_bytes_space x = true) ws2 ->
  strip (ws1 ++ s ++ ws2) = strip s.
Proof.
  intros H1 H2. unfold strip. rewrite lstrip_spaces_app by exact H1.
  rewrite lstrip_app.
  destruct (lstrip s) as [|x r] eqn:E.
  - pose proof (lstrip_spaces_app ws2 [] H2) as P. rewrite app_nil_r in P.
    now rewrite P.
  - rewrite rev_app_distr. rewrite lstrip_spaces_app; [reflexivity|].
    now apply Forall_rev.
Qed.

Lemma response_strip (self : PM10AHDS) (resp resp' : bytes) :
  resp <> [] -> resp' <> [] -> strip resp = strip resp' ->
  status_response self (Some resp) = status_response self (Some resp')
  /\ erase_response self (Some resp) = erase_response self (Some resp').
Proof.
  intros N N' E.
  destruct resp as [|x r]; [contradiction|].
  destruct resp' as [|x' r']; [contradiction|].
  unfold status_response, erase_response. now rewrite E.
Qed.

(** X10: white space around the response does not matter: a non-empty
    response padded with blanks, tabs, CR, LF, VT or FF on either side is
    handled by [request_status] and by [request_erase] exactly as the
    response itself. *)
Theorem response_padding (self : PM10AHDS) (ws1 ws2 resp : bytes) :
  Forall (fun x => is_bytes_space x = true) ws1 ->
  Forall (fun x => is_bytes_space x = true) ws2 ->
  resp <> [] ->
  status_response self (Some (ws1 ++ resp ++ ws2)) = status_response self (Some resp)
  /\ erase_response self (Some (ws1 ++ resp ++ ws2)) = erase_response self (Some resp).
Proof.
  intros H1 H2 N. apply response_strip.
  - destruct resp as [|x r]; [contradiction|].
    intros E. apply app_eq_nil in E as [_ E]. discriminate E.
  - exact N.
  - now apply strip_padding.
Qed.

Lemma response_padding_witness :
  let resp := b ">01E;00A6" in
  Forall (fun x => is_bytes_space x = true) (b "  ")
  /\ Forall (fun x => is_bytes_space x = true) CRLF
  /\ resp <> []
  /\ status_response {| address := 1 |} (Some (b "  " ++ resp ++ CRLF))
     = status_response {| address := 1 |} (Some resp)
  /\ erase_response {| address := 1 |} (Some (b "  " ++ resp ++ CRLF))
     = erase_response {| address := 1 |} (Some resp).
Proof.
  intros resp.
  assert (H1 : Forall (fun x => is_bytes_space x = true) (b "  "))
    by (repeat constructor).
  assert (H2 : Forall (fun x => is_bytes_space x = true) CRLF)
    by (repeat constructor).
  assert (N : resp <> []) by discriminate.
  split; [exact H1 | split; [exact H2 | split; [exact N|]]].
  exact (response_padding {| address := 1 |} _ _ resp H1 H2 N).
Defined.

(** ** Decoding *)

Lemma decode_spec (n : nat) :
  forall s, (length s <= n)%nat ->
    (exists t, decode s = ([], Return t) /\ (length t <= length s)%nat)
    \/ decode s = ([], Raise UnicodeDecodeError).
Proof.
  induction n as [|n IH]; intros s L.
  - destruct s; [left; exists []; split; [reflexivity | apply Nat.le_refl] | simpl in L; lia].
  - destruct s as [|b0 r0]; [left; exists []; split; [reflexivity | apply Nat.le_refl]|].
    cbn [decode]. cbn [length] in L |- *.
    assert (K : forall r, (length r <= n)%nat -> forall c,
               (exists t, (t <- decode r ;; ret (c :: t)) = ([], Return t)
                          /\ (length t <= S (length r))%nat)
               \/ (t <- decode r ;; ret (c :: t)) = ([], Raise UnicodeDecodeError)).
    { intros r Lr c. destruct (IH r Lr) as [(t & -> & Lt) | ->].
      - left. exists (c :: t). rewrite bind_return. split; [reflexivity|].
        cbn [length]. lia.
      - right. reflexivity. }
    destruct (Byte.to_N b0 <? 128)%N.
    { destruct (K r0 ltac:(lia) (Byte.to_N b0)) as [(t & E & Lt) | E];
        [left; exists t; split; [exact E | lia] | right; exact E]. }
    destruct (in_range 194 223 (Byte.to_N b0)).
    { destruct r0 as [|b1 r1]; [right; reflexivity|].
      destruct (in_range 128 191 (Byte.to_N b1)); [|right; reflexivity].
      cbn [length] in L |- *.
      match goal with |- context [ret (?c :: _)] =>
        destruct (K r1 ltac:(lia) c) as [(t & E & Lt) | E] end;
        [left; exists t; split; [exact E | lia] | right; exact E]. }
    destruct (in_range 224 239 (Byte.to_N b0)).
    { destruct r0 as [|b1 [|b2 r2]]; [right; reflexivity | right; reflexivity|].
      match goal with |- context [if ?c then _ else _] => destruct c end;
        [|right; reflexivity].
      cbn [length] in L |- *.
      match goal with |- context [ret (?c :: _)] =>
        destruct (K r2 ltac:(lia) c) as [(t & E & Lt) | E] end;
        [left; exists t; split; [exact E | lia] | right; exact E]. }
    destruct (in_range 240 244 (Byte.to_N b0)); [|right; reflexivity].
    destruct r0 as [|b1 [|b2 [|b3 r3]]];
      [right; reflexivity | right; reflexivity | right; reflexivity|].
    match goal with |- context [if ?c then _ else _] => destruct c end;
      [|right; reflexivity].
    cbn [length] in L |- *.
    match goal with |- context [ret (?c :: _)] =>
      destruct (K r3 ltac:(lia) c) as [(t & E & Lt) | E] end;
      [left; exists t; split; [exact E | lia] | right; exact E].
Qed.

Lemma decode_result (s : bytes) :
  (exists t, decode s = ([], Return t) /\ (length t <= length s)%nat)
  \/ decode s = ([], Raise UnicodeDecodeError).
Proof. apply (decode_spec (length s)). apply Nat.le_refl. Qed.

Lemma decode_ascii (s : bytes) :
  Forall (fun x => (Byte.to_N x < 128)%N) s -> decode s = ([], Return (map Byte.to_N s)).
Proof.
  induction 1 as [|x r Hx _ IH]; [reflexivity|].
  cbn [decode map]. apply N.ltb_lt in Hx. now rewrite Hx, IH, bind_return.
Qed.

(** ** What the request methods return *)

Lemma bind_Return_inv {A B} (m : M A) (k : A -> M B) (l : list log_event) (y : B) :
  bind m k = (l, Return y) ->
  exists l1 a l2, m = (l1, Return a) /\ k a = (l2, Return y) /\ l = l1 ++ l2.
Proof.
  unfold bind. destruct m as [l1 [a|e]]; [|discriminate].
  destruct (k a) as [l2 r] eqn:E. intros H. inversion H; subst.
  now exists l1, a, l2.
Qed.

Lemma index_inv {A} (s : list A) (i : nat) (l : list log_event) (x : A) :
  index s i = (l, Return x) -> nth_error s i = Some x /\ l = [].
Proof.
  unfold index. destruct (nth_error s i); [|discriminate].
  intros H. inversion H. now split.
Qed.

Ltac bind_step H :=
  let l1 := fresh "l" in
  let l2 := fresh "l" in
  let a := fresh "a" in
  let E := fresh "E" in
  apply bind_Return_inv in H as (l1 & a & l2 & E & H & ->).

(** X11: [request_status] returns a reading only for a response that
    [validate_packet] accepts, whose body decodes as text with type
    character [S] and splits into exactly 11 fields; the runtime of the
    reading is the integer value of field 3, and the lead/lag entry is
    [lag] when field 8 is the one-character text [1] and [lead]
    otherwise. *)
Theorem status_response_reading
    (self : PM10AHDS) (resp : bytes) (l : list log_event) (st : status) :
  status_response self (Some resp) = (l, Return (Some st)) ->
  exists lv body f3 f8,
    validate_packet self (strip resp) = (lv, Return true)
    /\ decode (frame_body (strip resp)) = ([], Return body)
    /\ nth_error body 3 = Some 83%N
    /\ length (str_split 44%N body) = 11%nat
    /\ nth_error (str_split 44%N body) 3 = Some f3
    /\ py_int f3 = ([], Return (runtime_seconds st))
    /\ nth_error (str_split 44%N body) 8 = Some f8
    /\ powerfactor_leadlag st = (if text_eqb f8 (u "1") then u "lag" else u "lead").
Proof.
  intros H. destruct resp as [|x0 r0]; [discriminate H|].
  unfold status_response in H.
  remember (strip (x0 :: r0)) as frame eqn:Ef. clear Ef.
  bind_step H. destruct a; [|discriminate H].
  unfold bytes, text in *. unfold bytes_split in H.
  rewrite index_split_0, bind_return in H.
  bind_step H.
  destruct (decode_result (hd [] (split Byte.eqb ";"%byte frame)))
    as [(body & D & _) | D]; rewrite D in E0; [|discriminate E0].
  injection E0 as <- <-.
  bind_step H. apply index_inv in E0 as [T ->].
  revert H. destruct (N.eqb_spec a 83) as [->|_]; intros H;
    [|cbv [negb bind logging_error ret] in H; inversion H].
  cbn [negb] in H.
  revert H.
  match goal with
  | |- context [Nat.eqb ?n 11] => destruct (Nat.eqb_spec n 11) as [L|_]
  end; intros H; [|cbv [negb bind logging_error ret] in H; inversion H].
  cbn [negb] in H.
  bind_step H. apply index_inv in E0 as [F3 ->]. rename a into f3.
  bind_step H.
  destruct (py_int_result f3) as [[z P] | P]; rewrite P in E0; [|discriminate E0].
  injection E0 as <- <-.
  do 19 (bind_step H).
  inversion H; subst; clear H. cbn [runtime_seconds powerfactor_leadlag].
  match goal with
  | V : validate_packet _ _ = (?lv, Return true),
    E8 : index _ 8 = (_, Return ?f) |- _ =>
      apply index_inv in E8 as [F8 _]; exists lv, body, f3, f
  end.
  unfold frame_body, bytes_split.
  repeat (split; [assumption|]). reflexivity.
Qed.

Lemma status_response_reading_witness :
  let st := {| runtime_seconds := 12627447;
               energy_kwh := 89716830841 * 2.7777777777778E-10;
               power_w := 3.2;
               voltage_v := 244.535;
               current_a := 0.0324;
               powerfactor_leadlag := u "lag";
               powerfactor := 0.40436;
               apparent_power_va := 7.927 |} in
  status_response {| address := 1 |} (Some example_response) = ([], Return (Some st))
  /\ exists lv body f3 f8,
       validate_packet {| address := 1 |} (strip example_response) = (lv, Return true)
       /\ decode (frame_body (strip example_response)) = ([], Return body)
       /\ nth_error body 3 = Some 83%N
       /\ length (str_split 44%N body) = 11%nat
       /\ nth_error (str_split 44%N body) 3 = Some f3
       /\ py_int f3 = ([], Return (runtime_seconds st))
       /\ nth_error (str_split 44%N body) 8 = Some f8
       /\ powerfactor_leadlag st = (if text_eqb f8 (u "1") then u "lag" else u "lead").
Proof.
  intros st.
  assert (H : status_response {| address := 1 |} (Some example_response)
              = ([], Return (Some st))) by (vm_compute; reflexivity).
  split; [exact H | exact (status_response_reading _ _ _ _ H)].
Defined.

(** X12: a validated response whose type character is not [S] makes
    [request_status] log that it is not a status response and return
    [None], whatever the fields are. *)
Theorem status_response_other_type
    (self : PM10AHDS) (resp : bytes) (body : text) (c : N) :
  validate_packet self (strip resp) = ([], Return true) ->
  decode (frame_body (strip resp)) = ([], Return body) ->
  nth_error body 3 = Some c -> c <> 83%N ->
  status_response self (Some resp) = ([LogNotStatus], Return None).
Proof.
  intros V D T N.
  destruct resp as [|x0 r0]; [discriminate V|].
  unfold status_response, frame_body, bytes_split in *.
  remember (strip (x0 :: r0)) as frame eqn:Ef. clear Ef.
  rewrite V, bind_return. cbv beta iota. unfold bytes, text in *.
  rewrite index_split_0, bind_return, D, bind_return.
  rewrite (index_nth _ _ _ T), bind_return.
  destruct (N.eqb_spec c 83) as [E|_]; [contradiction | reflexivity].
Qed.

Lemma status_response_other_type_witness :
  let resp := b ">01E;00A6" ++ CRLF in
  validate_packet {| address := 1 |} (strip resp) = ([], Return true)
  /\ decode (frame_body (strip resp)) = ([], Return (u ">01E"))
  /\ nth_error (u ">01E") 3 = Some 69%N /\ 69%N <> 83%N
  /\ status_response {| address := 1 |} (Some resp) = ([LogNotStatus], Return None).
Proof.
  intros resp.
  assert (V : validate_packet {| address := 1 |} (strip resp) = ([], Return true))
    by (vm_compute; reflexivity).
  assert (D : decode (frame_body (strip resp)) = ([], Return (u ">01E")))
    by (vm_compute; reflexivity).
  assert (T : nth_error (u ">01E") 3 = Some 69%N) by reflexivity.
  assert (N : 69%N <> 83%N) by discriminate.
  split; [exact V | split; [exact D | split; [exact T | split; [exact N|]]]].
  exact (status_response_other_type _ resp _ _ V D T N).
Defined.

(** X13: a response that passes validation but carries nothing between
    the address field and the separator makes [request_status] raise
    [IndexError]: the body text has only three characters. *)
Theorem status_response_empty_payload (a : Z) (resp rest : bytes) :
  1 <= a <= 254 ->
  strip resp = b ">" ++ (hex_field 2 a ++ []) ++ b ";"
                 ++ checksum_field (hex_field 2 a ++ []) ++ rest ->
  rest = [] \/ (exists v, rest = ";"%byte :: v) ->
  status_response {| address := a |} (Some resp) = ([], Raise IndexError).
Proof.
  intros Ha E Hrest.
  destruct resp as [|x0 r0]; [discriminate E|].
  unfold status_response.
  remember (strip (x0 :: r0)) as frame eqn:Ef. clear Ef. subst frame.
  rewrite validate_packet_accepts;
    [|exact Ha | exists [], rest; split; [reflexivity | split; [intros [] | exact Hrest]]].
  rewrite bind_ret_l. unfold bytes_split.
  change (b ">") with [">"%byte]. change (b ";") with [";"%byte].
  rewrite app_nil_r. cbn [app].
  change (">"%byte :: hex_field 2 a ++ ";"%byte :: ?t)
    with ((">"%byte :: hex_field 2 a) ++ ";"%byte :: t).
  rewrite (split_app_sep _ _ byte_eqb_eq).
  2:{ intros [I|I]; [discriminate | now apply hex_field_nosep in I]. }
  cbn [index nth_error]. rewrite bind_ret_l.
  rewrite decode_ascii.
  2:{ constructor; [vm_compute; reflexivity|].
      eapply Forall_impl; [|apply (hex_field_digits 2 a)].
      intros x (_ & L & _). exact L. }
  rewrite bind_return. cbn [hex_field app map index nth_error].
  reflexivity.
Qed.

Lemma status_response_empty_payload_witness :
  1 <= 1 <= 254
  /\ strip (b ">01;0061" ++ CRLF)
     = b ">" ++ (hex_field 2 1 ++ []) ++ b ";"
         ++ checksum_field (hex_field 2 1 ++ []) ++ []
  /\ status_response {| address := 1 |} (Some (b ">01;0061" ++ CRLF))
     = ([], Raise IndexError).
Proof.
  assert (Ha : 1 <= 1 <= 254) by lia.
  assert (E : strip (b ">01;0061" ++ CRLF)
              = b ">" ++ (hex_field 2 1 ++ []) ++ b ";"
                  ++ checksum_field (hex_field 2 1 ++ []) ++ [])
    by (vm_compute; reflexivity).
  split; [exact Ha | split; [exact E|]].
  exact (status_response_empty_payload 1 _ [] Ha E (or_introl eq_refl)).
Defined.

(** X14: [request_erase] does not return on a response shorter than four
    bytes once stripped: it is left by [IndexError], or by
    [UnicodeDecodeError] when the bytes are not UTF-8. *)
Theorem erase_response_short (self : PM10AHDS) (resp : bytes) :
  resp <> [] -> (length (strip resp) < 4)%nat ->
  erase_response self (Some resp) = ([], Raise IndexError)
  \/ erase_response self (Some resp) = ([], Raise UnicodeDecodeError).
Proof.
  intros N L. destruct resp as [|x0 r0]; [contradiction|].
  unfold erase_response.
  remember (strip (x0 :: r0)) as frame eqn:Ef. clear Ef.
  destruct (decode_result frame) as [(t & -> & Lt) | ->]; [left | right; reflexivity].
  rewrite bind_return. unfold index.
  destruct (nth_error t 3) eqn:E; [|reflexivity].
  assert (3 < length t)%nat by (apply nth_error_Some; congruence). lia.
Qed.

Lemma erase_response_short_witness :
  b "E" ++ CRLF <> [] /\ (length (strip (b "E" ++ CRLF)) < 4)%nat
  /\ (erase_response {| address := 1 |} (Some (b "E" ++ CRLF)) = ([], Raise IndexError)
      \/ erase_response {| address := 1 |} (Some (b "E" ++ CRLF))
         = ([], Raise UnicodeDecodeError)).
Proof.
  assert (N : b "E" ++ CRLF <> []) by discriminate.
  assert (L : (length (strip (b "E" ++ CRLF)) < 4)%nat) by (vm_compute; lia).
  split; [exact N | split; [exact L|]].
  exact (erase_response_short {| address := 1 |} _ N L).
Defined.

(** X15: a command given as ASCII text is framed exactly as the bytes of
    its characters: [construct_packet] encodes it first. *)
Theorem construct_packet_str (a : Z) (s : text) :
  1 <= a <= 254 -> Forall (fun c => (c < 128)%N) s ->
  construct_packet {| address := a |} (Str s)
  = construct_packet {| address := a |} (Bytes (map byte_of_N s))
  /\ construct_packet {| address := a |} (Str s)
     = ([], Return (b "<" ++ (hex_field 2 a ++ map byte_of_N s) ++ b ";"
                      ++ checksum_field (hex_field 2 a ++ map byte_of_N s) ++ CRLF)).
Proof.
  intros Ha F.
  assert (E : construct_packet {| address := a |} (Str s)
              = construct_packet {| address := a |} (Bytes (map byte_of_N s))).
  { unfold construct_packet. now rewrite (encode_ascii s F). }
  split; [exact E|]. rewrite E. now apply construct_packet_bytes.
Qed.

Lemma construct_packet_str_witness :
  1 <= 1 <= 254 /\ Forall (fun c => (c < 128)%N) (u "S,")
  /\ construct_packet {| address := 1 |} (Str (u "S,"))
     = ([], Return (b "<01S,;00E0" ++ CRLF)).
Proof.
  assert (Ha : 1 <= 1 <= 254) by lia.
  assert (F : Forall (fun c => (c < 128)%N) (u "S,"))
    by (repeat constructor).
  split; [exact Ha | split; [exact F|]].
  rewrite (proj2 (construct_packet_str 1 (u "S,") Ha F)). reflexivity.
Defined.

(** ** Bytes that are not text *)

Lemma decode_invalid (p r : bytes) (x : byte) :
  Forall (fun y => (Byte.to_N y < 128)%N) p -> invalid_lead x = true ->
  decode (p ++ x :: r) = ([], Raise UnicodeDecodeError).
Proof.
  intros F I. induction F as [|y q Hy _ IH].
  - cbn [app decode]. unfold invalid_lead in I.
    apply orb_prop in I. rewrite !in_range_spec in I.
    destruct (N.ltb_spec (Byte.to_N x) 128) as [L|_]; [lia|].
    destruct (in_range 194 223 (Byte.to_N x)) eqn:R2;
      [apply in_range_spec in R2; lia|].
    destruct (in_range 224 239 (Byte.to_N x)) eqn:R3;
      [apply in_range_spec in R3; lia|].
    destruct (in_range 240 244 (Byte.to_N x)) eqn:R4;
      [apply in_range_spec in R4; lia | reflexivity].
  - cbn [app decode]. apply N.ltb_lt in Hy. now rewrite Hy, IH.
Qed.

(** X16: neither request method survives a byte that is not UTF-8:
    [request_erase] raises [UnicodeDecodeError] on any response with such
    a byte after ASCII text, and so does [request_status] when the byte
    sits in the payload of a frame with the right checksum. *)
Theorem response_not_text (a : Z) (p1 p2 : bytes) (x : byte) :
  1 <= a <= 254 ->
  Forall (fun y => (Byte.to_N y < 128)%N /\ y <> ";"%byte /\ is_bytes_space y = false) p1 ->
  invalid_lead x = true -> ~ In ";"%byte p2 ->
  let payload := p1 ++ x :: p2 in
  let frame := b ">" ++ (hex_field 2 a ++ payload) ++ b ";"
                 ++ checksum_field (hex_field 2 a ++ payload) in
  erase_response {| address := a |} (Some (frame ++ CRLF))
  = ([], Raise UnicodeDecodeError)
  /\ status_response {| address := a |} (Some (frame ++ CRLF))
     = ([], Raise UnicodeDecodeError).
Proof.
  intros Ha F I N2 payload frame.
  assert (Nx : x <> ";"%byte) by (intros ->; discriminate I).
  assert (Np : ~ In ";"%byte payload).
  { subst payload. intros J. apply in_app_or in J as [J|[J|J]].
    - rewrite Forall_forall in F. now destruct (F _ J) as (_ & K & _).
    - now apply Nx.
    - now apply N2. }
  destruct (checksum_field_last (hex_field 2 a ++ payload)) as (cs & last & Ecs & Hl).
  assert (Es : strip (frame ++ CRLF) = frame).
  { subst frame. change (b ">") with [">"%byte]. cbn [app]. rewrite Ecs.
    replace (((hex_field 2 a ++ payload) ++ b ";" ++ cs ++ [last]) ++ CRLF)
      with (((hex_field 2 a ++ payload) ++ b ";" ++ cs) ++ last :: CRLF)
      by (rewrite <- !app_assoc; reflexivity).
    rewrite strip_line by (exact Hl || reflexivity).
    now rewrite <- !app_assoc. }
  assert (Fh : Forall (fun y => (Byte.to_N y < 128)%N) (">"%byte :: hex_field 2 a ++ p1)).
  { constructor; [vm_compute; reflexivity|]. apply Forall_app. split.
    - eapply Forall_impl; [|apply (hex_field_digits 2 a)]. now intros y (_ & L & _).
    - eapply Forall_impl; [|exact F]. now intros y (L & _). }
  assert (Ne : frame ++ CRLF <> []).
  { subst frame. change (b ">") with [">"%byte]. discriminate. }
  destruct (frame ++ CRLF) as [|x0 r0] eqn:Efr; [contradiction|].
  unfold erase_response, status_response. rewrite Es.
  split.
  - assert (Eq : frame = (">"%byte :: hex_field 2 a ++ p1)
                          ++ x :: (p2 ++ b ";" ++ checksum_field (hex_field 2 a ++ payload))).
    { subst frame payload. change (b ">") with [">"%byte]. cbn [app].
      now rewrite <- !app_assoc. }
    rewrite Eq. now rewrite decode_invalid.
  - rewrite validate_packet_accepts;
      [|exact Ha | exists payload, []; subst frame;
                   rewrite app_nil_r; split; [reflexivity | split; [exact Np | now left]]].
    rewrite bind_ret_l. unfold bytes_split. subst frame.
    change (b ">") with [">"%byte]. change (b ";") with [";"%byte]. cbn [app].
    change (">"%byte :: (hex_field 2 a ++ payload) ++ ";"%byte :: ?t)
      with ((">"%byte :: hex_field 2 a ++ payload) ++ ";"%byte :: t).
    rewrite (split_app_sep _ _ byte_eqb_eq).
    2:{ intros [J|J]; [discriminate|]. apply in_app_or in J as [J|J];
          [now apply hex_field_nosep in J | now apply Np]. }
    cbn [index nth_error]. rewrite bind_ret_l. subst payload.
    replace (">"%byte :: hex_field 2 a ++ p1 ++ x :: p2)
      with ((">"%byte :: hex_field 2 a ++ p1) ++ x :: p2)
      by (cbn [app]; now rewrite <- !app_assoc).
    now rewrite decode_invalid.
Qed.

Lemma response_not_text_witness :
  let payload := b "E" ++ xff :: [] in
  let frame := b ">" ++ (hex_field 2 1 ++ payload) ++ b ";"
                 ++ checksum_field (hex_field 2 1 ++ payload) in
  1 <= 1 <= 254
  /\ Forall (fun y => (Byte.to_N y < 128)%N /\ y <> ";"%byte /\ is_bytes_space y = false)
            (b "E")
  /\ invalid_lead xff = true
  /\ erase_response {| address := 1 |} (Some (frame ++ CRLF))
     = ([], Raise UnicodeDecodeError)
  /\ status_response {| address := 1 |} (Some (frame ++ CRLF))
     = ([], Raise UnicodeDecodeError).
Proof.
  intros payload frame.
  assert (Ha : 1 <= 1 <= 254) by lia.
  assert (F : Forall (fun y => (Byte.to_N y < 128)%N /\ y <> ";"%byte
                               /\ is_bytes_space y = false) (b "E")).
  { constructor; [|constructor].
    split; [vm_compute; reflexivity | split; [discriminate | reflexivity]]. }
  assert (I : invalid_lead xff = true) by reflexivity.
  split; [exact Ha | split; [exact F | split; [exact I|]]].
  exact (response_not_text 1 (b "E") [] xff Ha F I (fun H => H)).
Defined.

(** ** Rejected responses *)

Lemma status_response_rejected (self : PM10AHDS) (resp : bytes) (l : list log_event) :
  resp <> [] ->
  validate_packet self (strip resp) = (l, Return false) ->
  status_response self (Some resp) = (l, Return None).
Proof.
  intros N V. destruct resp as [|x0 r0]; [contradiction|].
  unfold status_response. rewrite V. unfold bind, ret. now rewrite app_nil_r.
Qed.

(** X17: a response that is not empty once stripped and that the
    validator does not accept never makes [request_status] raise: the
    method returns [None] and logs exactly one error record. *)
Theorem status_response_invalid (a : Z) (resp : bytes) :
  1 <= a <= 254 -> strip resp <> [] ->
  validate_packet {| address := a |} (strip resp) = ([], Return true)
  \/ exists ev, status_response {| address := a |} (Some resp) = ([ev], Return None).
Proof.
  intros Ha N.
  destruct (validate_packet_nonempty_returns a (strip resp) Ha N) as [V | (ev & V)];
    [now left | right; exists ev].
  apply status_response_rejected; [|exact V].
  intros ->. now apply N.
Qed.

Lemma status_response_invalid_witness :
  1 <= 1 <= 254 /\ strip (b "noise" ++ CRLF) <> []
  /\ (validate_packet {| address := 1 |} (strip (b "noise" ++ CRLF)) = ([], Return true)
      \/ exists ev, status_response {| address := 1 |} (Some (b "noise" ++ CRLF))
                    = ([ev], Return None)).
Proof.
  assert (Ha : 1 <= 1 <= 254) by lia.
  assert (N : strip (b "noise" ++ CRLF) <> []) by (vm_compute; discriminate).
  split; [exact Ha | split; [exact N|]].
  exact (status_response_invalid 1 _ Ha N).
Defined.

(** X18: when the line read back is the request itself (the echo of a
    half-duplex line), [request_status] returns [None] with the
    start-marker record: the driver does not mistake its own packet for
    an answer. *)
Theorem request_status_own_echo (a : Z) (s : Serial) (packet : bytes) (later : list bytes) :
  1 <= a <= 254 ->
  construct_packet {| address := a |} (Bytes (b "S,")) = ([], Return packet) ->
  incoming s = packet :: later ->
  snd (request_status {| address := a |} s) = ([LogNoSOM], Return None).
Proof.
  intros Ha C I. unfold request_status.
  rewrite request_unfold by exact Ha. rewrite I. cbn [snd hd].
  assert (P : packet = b "<" ++ (hex_field 2 a ++ b "S,") ++ b ";"
                         ++ checksum_field (hex_field 2 a ++ b "S,") ++ CRLF).
  { rewrite construct_packet_bytes in C by exact Ha. unfold ret in C. congruence. }
  subst packet. clear C.
  apply status_response_rejected.
  - change (b "<") with ["<"%byte]. discriminate.
  - destruct (checksum_field_last (hex_field 2 a ++ b "S,")) as (cs & last & -> & Hl).
    change (b "<") with ["<"%byte]. cbn [app].
    replace ((hex_field 2 a ++ b "S,") ++ b ";" ++ (cs ++ [last]) ++ CRLF)
      with (((hex_field 2 a ++ b "S,") ++ b ";" ++ cs) ++ last :: CRLF)
      by (rewrite <- !app_assoc; reflexivity).
    rewrite strip_line by (exact Hl || reflexivity).
    apply validate_packet_bad_som. discriminate.
Qed.

Lemma request_status_own_echo_witness :
  let s := {| written := []; incoming := [b "<01S,;00E0" ++ CRLF] |} in
  1 <= 1 <= 254
  /\ construct_packet {| address := 1 |} (Bytes (b "S,"))
     = ([], Return (b "<01S,;00E0" ++ CRLF))
  /\ incoming s = [b "<01S,;00E0" ++ CRLF]
  /\ snd (request_status {| address := 1 |} s) = ([LogNoSOM], Return None).
Proof.
  intros s.
  assert (Ha : 1 <= 1 <= 254) by lia.
  assert (C : construct_packet {| address := 1 |} (Bytes (b "S,"))
              = ([], Return (b "<01S,;00E0" ++ CRLF))) by reflexivity.
  assert (I : incoming s = [b "<01S,;00E0" ++ CRLF]) by reflexivity.
  split; [exact Ha | split; [exact C | split; [exact I|]]].
  exact (request_status_own_echo 1 s _ [] Ha C I).
Defined.

(** ** Framing is unambiguous *)

Lemma app_inv_prefix_length {A} (l1 l2 t1 t2 : list A) :
  l1 ++ t1 = l2 ++ t2 -> length l1 = length l2 -> l1 = l2 /\ t1 = t2.
Proof.
  revert l2. induction l1 as [|x r IH]; intros [|y q] E Ll; try discriminate Ll.
  - now split.
  - cbn [app] in E. injection E as -> E. cbn [length] in Ll.
    destruct (IH q E ltac:(lia)) as [-> ->]. now split.
Qed.

Lemma app_inv_same_length {A} (l1 l2 t1 t2 : list A) :
  l1 ++ t1 = l2 ++ t2 -> length t1 = length t2 -> l1 = l2 /\ t1 = t2.
Proof.
  intros E L. apply app_inv_prefix_length; [exact E|].
  apply (f_equal (@length A)) in E. rewrite !length_app in E. lia.
Qed.

(** X19: [construct_packet] is injective: two packets are equal only when
    they were built for the same address and the same command. *)
Theorem construct_packet_injective (a a' : Z) (c c' packet : bytes) :
  1 <= a <= 254 -> 1 <= a' <= 254 ->
  construct_packet {| address := a |} (Bytes c) = ([], Return packet) ->
  construct_packet {| address := a' |} (Bytes c') = ([], Return packet) ->
  a = a' /\ c = c'.
Proof.
  intros Ha Ha' C C'.
  rewrite construct_packet_bytes in C, C' by assumption.
  unfold ret in C, C'.
  assert (P' : b "<" ++ (hex_field 2 a ++ c) ++ b ";"
                 ++ checksum_field (hex_field 2 a ++ c) ++ CRLF
               = b "<" ++ (hex_field 2 a' ++ c') ++ b ";"
                   ++ checksum_field (hex_field 2 a' ++ c') ++ CRLF) by congruence.
  clear C C'.
  apply app_inv_head in P'.
  rewrite <- !app_assoc in P'.
  apply app_inv_prefix_length in P' as [Eh P']; [|now rewrite !hex_field_length].
  apply hex_field_inj in Eh; [|simpl; lia | simpl; lia]. subst a'.
  apply app_inv_same_length in P' as [Ec _]; [now split|].
  unfold checksum_field. now rewrite !length_app, !hex_field_length.
Qed.

Lemma construct_packet_injective_witness :
  1 <= 1 <= 254
  /\ construct_packet {| address := 1 |} (Bytes (b "S,"))
     = ([], Return (b "<01S,;00E0" ++ CRLF))
  /\ (1 = 1 /\ b "S," = b "S,").
Proof.
  assert (Ha : 1 <= 1 <= 254) by lia.
  assert (C : construct_packet {| address := 1 |} (Bytes (b "S,"))
              = ([], Return (b "<01S,;00E0" ++ CRLF))) by reflexivity.
  split; [exact Ha | split; [exact C|]].
  exact (construct_packet_injective 1 1 _ _ _ Ha Ha C C).
Defined.
